(** * SageMakerProcessingOperator: a shallow embedding

    Source: airflow/providers/amazon/aws/operators/sagemaker_processing.py

    The operator's configuration is a Python [dict] of nested dicts with
    string keys; it is embedded as a [gmap string value].  Calls to the
    collaborators (the SageMaker hook, the IAM hook) are threaded through
    a state-and-exception monad that also records every call in a trace,
    so that statements about which calls are issued, how often and in
    which order are statements about that trace. *)

From Stdlib Require Import ZArith Ascii String.
From stdpp Require Import gmap strings list fin_maps.

Open Scope Z_scope.
Open Scope string_scope.
Open Scope list_scope.

(** ** Python values *)

(** The values a rendered configuration or a hook response is made of.
    Floating-point numbers are left out. *)
#[local] Unset Elimination Schemes.
Inductive value : Type :=
  | VNone
  | VBool (b : bool)
  | VInt (z : Z)
  | VStr (s : string)
  | VList (l : list value)
  | VDict (d : gmap string value).
#[local] Set Elimination Schemes.

(** Python exceptions.  [Propagated e] is the exception [e] raised inside
    a collaborator and passing through the operator, which never catches
    it: the constructor records where the exception was raised, as its
    traceback does. *)
Inductive exn : Type :=
  | AirflowException (msg : string)
  | KeyError (key : string)
  | TypeError
  | ValueError (literal : string)
  | Propagated (cause : exn).

Inductive result (A : Type) : Type :=
  | Ok (a : A)
  | Raise (e : exn).
Arguments Ok {A} a.
Arguments Raise {A} e.

(** ** The integer cast [int(x)] *)

Module PyInt.

Definition is_space (c : ascii) : bool :=
  let n := nat_of_ascii c in
  ((9 <=? n) && (n <=? 13) || (n =? 32))%nat.

Definition digit_of (c : ascii) : option Z :=
  let n := nat_of_ascii c in
  if ((48 <=? n) && (n <=? 57))%nat then Some (Z.of_nat n - 48) else None.

Definition is_underscore (c : ascii) : bool := (nat_of_ascii c =? 95)%nat.

Fixpoint lstrip (l : list ascii) : list ascii :=
  match l with
  | c :: l' => if is_space c then lstrip l' else l
  | [] => []
  end.

Definition strip (l : list ascii) : list ascii :=
  rev (lstrip (rev (lstrip l))).

(** Digits after the first one: a single underscore may separate two
    digits. [acc] is the number read so far. *)
Fixpoint more_digits (acc : Z) (l : list ascii) : option Z :=
  match l with
  | [] => Some acc
  | c :: l' =>
      match digit_of c with
      | Some d => more_digits (10 * acc + d) l'
      | None =>
          if is_underscore c then
            match l' with
            | c' :: l'' =>
                match digit_of c' with
                | Some d => more_digits (10 * acc + d) l''
                | None => None
                end
            | [] => None
            end
          else None
      end
  end.

Definition digits (l : list ascii) : option Z :=
  match l with
  | c :: l' =>
      match digit_of c with
      | Some d => more_digits d l'
      | None => None
      end
  | [] => None
  end.

Definition signed (l : list ascii) : option Z :=
  match l with
  | "+"%char :: l' => digits l'
  | "-"%char :: l' => Z.opp <$> digits l'
  | _ => digits l
  end.

(** [int(s)] for a [str] holding a decimal literal. *)
Definition of_string (s : string) : option Z :=
  signed (strip (list_ascii_of_string s)).

End PyInt.

(** [int(v)]: identity on integers, [True]/[False] become 1/0, a string
    is parsed, anything else is a [TypeError].  A string is a sequence of
    ASCII characters here: the blanks [int] skips are the tab, the line
    feed, the vertical tab, the form feed, the carriage return and the
    space; the digits and blanks of other scripts have no counterpart. *)
Definition py_int (v : value) : result value :=
  match v with
  | VInt z => Ok (VInt z)
  | VBool b => Ok (VInt (if b then 1 else 0))
  | VStr s =>
      match PyInt.of_string s with
      | Some z => Ok (VInt z)
      | None => Raise (ValueError s)
      end
  | VNone | VList _ | VDict _ => Raise TypeError
  end.

(** ** Formatting and item access *)

(** A path into the configuration, as in [self.integer_fields]. *)
Abbreviation path := (list string).

(** [d[key]] on a dict. *)
Definition getitem (d : gmap string value) (key : string) : result value :=
  match d !! key with
  | Some v => Ok v
  | None => Raise (KeyError key)
  end.

(** [v[key]] on an arbitrary value: only a dict can be subscripted by a
    string. *)
Definition py_getitem (v : value) (key : string) : result value :=
  match v with
  | VDict d => getitem d key
  | _ => Raise TypeError
  end.

(** [v != n] for an integer literal [n]. *)
Definition py_ne_int (v : value) (n : Z) : bool :=
  match v with
  | VInt z => negb (z =? n)%Z
  | VBool b => negb ((if b then 1 else 0) =? n)%Z
  | _ => true
  end.

(** What an f-string puts in place of [{v}]: a [str] is inserted as it
    is, any other value through Python's built-in [repr]. *)
Definition py_str (repr : value → string) (v : value) : string :=
  match v with
  | VStr s => s
  | _ => repr v
  end.

(** [needle in haystack] on strings. *)
Definition contains (haystack needle : string) : Prop :=
  ∃ before after, haystack = (before ++ needle ++ after)%string.

(** ** The operator object *)

Record operator : Type := Operator {
  config : gmap string value;
  aws_conn_id : string;
  action_if_job_exists : string;
  wait_for_completion : bool;
  print_log : bool;
  check_interval : Z;
  max_ingestion_time : option Z;
  integer_fields : list path
}.

Definition set_config (self : operator) (c : gmap string value) : operator :=
  Operator c (aws_conn_id self) (action_if_job_exists self)
    (wait_for_completion self) (print_log self) (check_interval self)
    (max_ingestion_time self) (integer_fields self).

Definition set_integer_fields (self : operator) (f : list path) : operator :=
  Operator (config self) (aws_conn_id self) (action_if_job_exists self)
    (wait_for_completion self) (print_log self) (check_interval self)
    (max_ingestion_time self) f.

Definition resource_cluster_fields : list path :=
  [ ["ProcessingResources"; "ClusterConfig"; "InstanceCount"];
    ["ProcessingResources"; "ClusterConfig"; "VolumeSizeInGB"] ].

Definition runtime_timeout_field : path :=
  ["StoppingCondition"; "MaxRuntimeInSeconds"].

(** [_create_integer_fields]: sets [self.integer_fields]. *)
Definition _create_integer_fields (self : operator) : operator :=
  let integer_fields := resource_cluster_fields in
  if decide (is_Some (config self !! "StoppingCondition")) then
    set_integer_fields self (integer_fields ++ [runtime_timeout_field])
  else
    set_integer_fields self integer_fields.

Definition invalid_action_message (action : string) : string :=
  ("Argument action_if_job_exists accepts only 'increment' and 'fail'. "
   ++ "Provided value: '" ++ action ++ "'.")%string.

(** [__init__].  The constructor of the base class, which is not part of
    this file, is taken to store [config] and [aws_conn_id], the two
    attributes [expand_role] and [execute] read. *)
Definition __init__ (config : gmap string value) (aws_conn_id : string)
    (wait_for_completion print_log : bool) (check_interval : Z)
    (max_ingestion_time : option Z) (action_if_job_exists : string)
  : result operator :=
  if negb (bool_decide (action_if_job_exists ∈ ["increment"; "fail"])) then
    Raise (AirflowException (invalid_action_message action_if_job_exists))
  else
    Ok (_create_integer_fields
          (Operator config aws_conn_id action_if_job_exists
             wait_for_completion print_log check_interval
             max_ingestion_time [])).

(** The defaults of the keyword arguments. *)
Definition default_init (config : gmap string value) (aws_conn_id : string)
  : result operator :=
  __init__ config aws_conn_id true true 30 None "increment".

(** ** Exceptions as a monad *)

#[global] Instance result_ret : MRet result := λ _ a, Ok a.
#[global] Instance result_bind : MBind result := λ _ _ k r,
  match r with
  | Ok a => k a
  | Raise e => Raise e
  end.

(** ** Integer-field coercion *)

(** Modelled from the spec: [parse_integer] is a method of the base class
    [SageMakerBaseOperator], which is not part of this file.  Following
    section 4.1, the value found at the path is replaced with its integer
    cast; a path that is not present (a missing key, or a value on the way
    that is not a mapping) leaves the configuration untouched, and so does
    the empty path, which names no field. *)
Fixpoint parse_integer (config : gmap string value) (field : path)
  : result (gmap string value) :=
  match field with
  | [] => Ok config
  | [head] =>
      match config !! head with
      | Some v => v' ← py_int v; Ok (<[head := v']> config)
      | None => Ok config
      end
  | head :: tail =>
      match config !! head with
      | Some (VDict sub) =>
          sub' ← parse_integer sub tail; Ok (<[head := VDict sub']> config)
      | _ => Ok config
      end
  end.

(** Modelled from the spec: [parse_config_integers] of the base class
    walks [self.integer_fields] in order. *)
Fixpoint parse_fields (config : gmap string value) (fields : list path)
  : result (gmap string value) :=
  match fields with
  | [] => Ok config
  | field :: fields' =>
      config' ← parse_integer config field; parse_fields config' fields'
  end.

Definition parse_config_integers (self : operator) : result operator :=
  config' ← parse_fields (config self) (integer_fields self);
  Ok (set_config self config').

(** ** Collaborators, traces and the execution monad *)

(** The collaborators of the operator: the IAM hook built in
    [expand_role] from the connection id, and the SageMaker hook
    [self.hook].  [World] is whatever state the remote platform has;
    every call may change it and may raise.  A collaborator is handed
    values and hands values back: it does not keep a reference to the
    configuration. *)
Record Hooks (World : Type) : Type := {
  iam_expand_role : string → value → World → result value * World;
  find_processing_job_by_name : value → World → result bool * World;
  create_processing_job :
    gmap string value → bool → Z → option Z → World → result value * World;
  describe_processing_job : value → World → result value * World
}.
Arguments iam_expand_role {World}.
Arguments find_processing_job_by_name {World}.
Arguments create_processing_job {World}.
Arguments describe_processing_job {World}.

(** What an execution does that is visible from outside, each call with
    its arguments and its answer. *)
Inductive event : Type :=
  | EvExpandRole (conn_id : string) (role : value) (r : result value)
  | EvNormalized (config : gmap string value)
  | EvFind (name : value) (r : result bool)
  | EvLogInfo (format : string) (arg : value)
  | EvCreate (config : gmap string value) (wait : bool) (interval : Z)
      (max_time : option Z) (r : result value)
  | EvDescribe (name : value) (r : result value).

Definition is_find (e : event) : bool :=
  match e with EvFind _ _ => true | _ => false end.
Definition is_create (e : event) : bool :=
  match e with EvCreate _ _ _ _ _ => true | _ => false end.
Definition is_describe (e : event) : bool :=
  match e with EvDescribe _ _ => true | _ => false end.
Definition is_normalized (e : event) : bool :=
  match e with EvNormalized _ => true | _ => false end.
Definition is_expand_role (e : event) : bool :=
  match e with EvExpandRole _ _ _ => true | _ => false end.
Definition is_normalization (e : event) : bool :=
  is_expand_role e || is_normalized e.

(** The number of events of a kind in a trace. *)
Definition count (p : event → bool) (t : list event) : nat :=
  length (filter (λ e, p e = true) t).

(** One run: how it ended, the state of the platform afterwards and what
    happened on the way. *)
Record run (World A : Type) : Type := Run {
  outcome : result A;
  final : World;
  trace : list event
}.
Arguments Run {World A}.
Arguments outcome {World A}.
Arguments final {World A}.
Arguments trace {World A}.

Definition M (World A : Type) : Type := World → run World A.

Section Monad.
Context {World : Type}.

#[global] Instance M_ret : MRet (M World) := λ _ a w, Run (Ok a) w [].

#[global] Instance M_bind : MBind (M World) := λ _ _ k m w,
  match outcome (m w) with
  | Ok a =>
      let r := k a (final (m w)) in
      Run (outcome r) (final r) (trace (m w) ++ trace r)
  | Raise e => Run (Raise e) (final (m w)) (trace (m w))
  end.

Definition raise {A} (e : exn) : M World A := λ w, Run (Raise e) w [].

Definition lift {A} (r : result A) : M World A := λ w, Run r w [].

Definition emit (e : event) : M World unit := λ w, Run (Ok tt) w [e].

(** An exception of a collaborator passes through unchanged. *)
Definition propagate {A} (r : result A) : result A :=
  match r with
  | Ok a => Ok a
  | Raise e => Raise (Propagated e)
  end.

(** A call to a collaborator, recorded with its answer. *)
Definition call {A} (f : World → result A * World) (ev : result A → event)
  : M World A :=
  λ w, Run (propagate (f w).1) (f w).2 [ev (f w).1].
End Monad.

(** ** The operator's methods *)

Section Operator.
Context {World : Type} (hook : Hooks World) (repr : value → string).

(** [expand_role] *)
Definition expand_role (self : operator) : M World operator :=
  match config self !! "RoleArn" with
  | Some role =>
      arn ← call (iam_expand_role hook (aws_conn_id self) role)
              (EvExpandRole (aws_conn_id self) role);
      mret (set_config self (<["RoleArn" := arn]> (config self)))
  | None => mret self
  end.

(** Modelled from the spec: [preprocess_config] of the base class is not
    part of this file.  Following section 4.1 it coerces the integer
    fields and then expands the role; the event [EvNormalized] marks
    the end of the pass. *)
Definition preprocess_config (self : operator) : M World operator :=
  self ← lift (parse_config_integers self);
  self ← expand_role self;
  emit (EvNormalized (config self));;
  mret self.

Definition duplicate_job_message (processing_job_name : value) : string :=
  ("A SageMaker processing job with name "
   ++ py_str repr processing_job_name ++ " already exists.")%string.

Definition creation_failed_message (response : value) : string :=
  ("Sagemaker Processing Job creation failed: "
   ++ py_str repr response)%string.

(** [execute] *)
Definition execute (self : operator) : M World (gmap string value) :=
  self ← preprocess_config self;
  processing_job_name ← lift (getitem (config self) "ProcessingJobName");
  found ← call (find_processing_job_by_name hook processing_job_name)
            (EvFind processing_job_name);
  if (found : bool) then
    raise (AirflowException (duplicate_job_message processing_job_name))
  else
    name ← lift (getitem (config self) "ProcessingJobName");
    emit (EvLogInfo "Creating SageMaker processing job %s." name);;
    response ← call (create_processing_job hook (config self)
                       (wait_for_completion self) (check_interval self)
                       (max_ingestion_time self))
                 (EvCreate (config self) (wait_for_completion self)
                    (check_interval self) (max_ingestion_time self));
    metadata ← lift (py_getitem response "ResponseMetadata");
    status ← lift (py_getitem metadata "HTTPStatusCode");
    if py_ne_int status 200 then
      raise (AirflowException (creation_failed_message response))
    else
      name ← lift (getitem (config self) "ProcessingJobName");
      description ← call (describe_processing_job hook name)
                      (EvDescribe name);
      mret ({[ "Processing" := description ]} : gmap string value).

End Operator.

(** ** Derived notions

    What the statements below are phrased with. *)

(** [fixed field c]: coercing [field] in [c] changes nothing. *)
Definition fixed (field : path) (c : gmap string value) : Prop :=
  parse_integer c field = Ok c.

(** The coercion raises what [int] raises. *)
Definition cast_error (e : exn) : Prop :=
  e = TypeError ∨ ∃ literal, e = ValueError literal.

(** Every path the operator ever declares starts below one of two
    top-level sections. *)
Definition declared_integer_fields : list path :=
  resource_cluster_fields ++ [runtime_timeout_field].

(** The invariant [__init__] establishes on [self.integer_fields]. *)
Definition declared_fields_only (self : operator) : Prop :=
  integer_fields self ⊆ declared_integer_fields.

(** [prepend t r]: the run [r] after the events [t] have happened. *)
Definition prepend {World A} (t : list event) (r : run World A) : run World A :=
  Run (outcome r) (final r) (t ++ trace r).

(** The milestones of an execution the ordering claim is about. *)
Inductive step : Type := Normalize | Check | Submit.

Definition step_of (e : event) : option step :=
  match e with
  | EvNormalized _ => Some Normalize
  | EvFind _ _ => Some Check
  | EvCreate _ _ _ _ _ => Some Submit
  | _ => None
  end.

Definition steps (t : list event) : list step := omap step_of t.

Section Runs.
Context {World : Type} (hook : Hooks World) (repr : value → string).

(** [response['ResponseMetadata']['HTTPStatusCode']] *)
Definition status_code (response : value) : result value :=
  metadata ← py_getitem response "ResponseMetadata";
  py_getitem metadata "HTTPStatusCode".

(** The create-job call of an operator, with its answer. *)
Definition create_event (self : operator) (r : result value) : event :=
  EvCreate (config self) (wait_for_completion self) (check_interval self)
    (max_ingestion_time self) r.

Definition wrap (r : result value) : result (gmap string value) :=
  match r with
  | Ok description => Ok {[ "Processing" := description ]}
  | Raise e => Raise (Propagated e)
  end.

(** What happens from the create-job call on, for the normalized
    operator [self], the job name [name] and the platform state [w]. *)
Inductive submission (self : operator) (name : value) (w : World)
  : run World (gmap string value) → Prop :=
  | create_raises e w' :
      create_processing_job hook (config self) (wait_for_completion self)
        (check_interval self) (max_ingestion_time self) w = (Raise e, w') →
      submission self name w
        (Run (Raise (Propagated e)) w' [create_event self (Raise e)])
  | malformed_response response w' e :
      create_processing_job hook (config self) (wait_for_completion self)
        (check_interval self) (max_ingestion_time self) w = (Ok response, w') →
      status_code response = Raise e →
      submission self name w
        (Run (Raise e) w' [create_event self (Ok response)])
  | creation_failed response w' status :
      create_processing_job hook (config self) (wait_for_completion self)
        (check_interval self) (max_ingestion_time self) w = (Ok response, w') →
      status_code response = Ok status →
      py_ne_int status 200 = true →
      submission self name w
        (Run (Raise (AirflowException (creation_failed_message repr response)))
           w' [create_event self (Ok response)])
  | created response w' status r w'' :
      create_processing_job hook (config self) (wait_for_completion self)
        (check_interval self) (max_ingestion_time self) w = (Ok response, w') →
      status_code response = Ok status →
      py_ne_int status 200 = false →
      describe_processing_job hook name w' = (r, w'') →
      submission self name w
        (Run (wrap r) w'' [create_event self (Ok response); EvDescribe name r]).

(** The runs of [execute]: one case for each way it can end. *)
Inductive execution (self : operator) (w : World)
  : run World (gmap string value) → Prop :=
  | normalization_raises e w1 t :
      preprocess_config hook self w = Run (Raise e) w1 t →
      execution self w (Run (Raise e) w1 t)
  | no_job_name self' w1 t :
      preprocess_config hook self w = Run (Ok self') w1 t →
      config self' !! "ProcessingJobName" = None →
      execution self w (Run (Raise (KeyError "ProcessingJobName")) w1 t)
  | find_raises self' w1 t name e w2 :
      preprocess_config hook self w = Run (Ok self') w1 t →
      config self' !! "ProcessingJobName" = Some name →
      find_processing_job_by_name hook name w1 = (Raise e, w2) →
      execution self w
        (Run (Raise (Propagated e)) w2 (t ++ [EvFind name (Raise e)]))
  | duplicate_job self' w1 t name w2 :
      preprocess_config hook self w = Run (Ok self') w1 t →
      config self' !! "ProcessingJobName" = Some name →
      find_processing_job_by_name hook name w1 = (Ok true, w2) →
      execution self w
        (Run (Raise (AirflowException (duplicate_job_message repr name))) w2
           (t ++ [EvFind name (Ok true)]))
  | submitted self' w1 t name w2 r :
      preprocess_config hook self w = Run (Ok self') w1 t →
      config self' !! "ProcessingJobName" = Some name →
      find_processing_job_by_name hook name w1 = (Ok false, w2) →
      submission self' name w2 r →
      execution self w
        (prepend
           (t ++ [EvFind name (Ok false);
                  EvLogInfo "Creating SageMaker processing job %s." name])
           r).

(** The identity resolver answers every reference it has produced with
    that same reference, whatever the state of the platform. *)
Definition resolver_idempotent : Prop :=
  ∀ conn_id role w arn w',
    iam_expand_role hook conn_id role w = (Ok arn, w') →
    ∀ w'', (iam_expand_role hook conn_id arn w'').1 = Ok arn.

End Runs.

(** ** Test doubles

    An in-memory platform to run the operator against: the world is the
    list of the names of the jobs that exist; creating a job records its
    name and answers with the given HTTP status code; the IAM hook is the
    resolver given. *)
Module Mock.

Definition World : Type := list value.

Definition response (status : Z) : value :=
  VDict {[ "ResponseMetadata" := VDict {[ "HTTPStatusCode" := VInt status ]} ]}.

Definition description (name : value) : value :=
  VDict {[ "ProcessingJobName" := name;
           "ProcessingJobStatus" := VStr "InProgress" ]}.

Definition role_path : string := "arn:aws:iam::123456789012:role/".

Fixpoint has_slash (s : string) : bool :=
  match s with
  | String c s' => bool_decide (c = "/"%char) || has_slash s'
  | EmptyString => false
  end.

(** A resolver that takes a reference with a slash in it for a full
    ARN and returns it as it is, and puts the account's role path in
    front of any other. *)
Definition expand (role : value) : result value :=
  match role with
  | VStr s =>
      if has_slash s then Ok (VStr s) else Ok (VStr (role_path ++ s)%string)
  | _ => Raise TypeError
  end.

Fixpoint known (name : value) (jobs : World) : bool :=
  match name, jobs with
  | VStr s, VStr s' :: jobs' => bool_decide (s = s') || known name jobs'
  | _, _ :: jobs' => known name jobs'
  | _, [] => false
  end.

Definition hook (resolver : value → result value) (status : Z)
  : Hooks World := {|
  iam_expand_role := λ _ role w, (resolver role, w);
  find_processing_job_by_name := λ name w, (Ok (known name w), w);
  create_processing_job := λ config _ _ _ w,
    match config !! "ProcessingJobName" with
    | Some name => (Ok (response status), name :: w)
    | None => (Raise (KeyError "ProcessingJobName"), w)
    end;
  describe_processing_job := λ name w,
    if known name w then (Ok (description name), w)
    else (Raise (AirflowException "Could not find requested job"), w)
|}.

Definition repr (v : value) : string :=
  match v with
  | VNone => "None"
  | VBool true => "True"
  | VBool false => "False"
  | VInt _ => "<int>"
  | VStr s => ("'" ++ s ++ "'")%string
  | VList _ => "[...]"
  | VDict _ => "{...}"
  end.

(** The job specification of the end-to-end example of section 8. *)
Definition job_1 : gmap string value :=
  {[ "ProcessingJobName" := VStr "job-1";
     "ProcessingResources" :=
       VDict {[ "ClusterConfig" :=
         VDict {[ "InstanceCount" := VStr "2";
                  "VolumeSizeInGB" := VStr "50" ]} ]} ]}.

Definition job_1_normalized : gmap string value :=
  {[ "ProcessingJobName" := VStr "job-1";
     "ProcessingResources" :=
       VDict {[ "ClusterConfig" :=
         VDict {[ "InstanceCount" := VInt 2;
                  "VolumeSizeInGB" := VInt 50 ]} ]} ]}.

(** A job specification with a role given by its short name. *)
Definition job_2 : gmap string value :=
  {[ "ProcessingJobName" := VStr "job-2";
     "RoleArn" := VStr "SageMakerRole" ]}.

Definition job_2_normalized : gmap string value :=
  {[ "ProcessingJobName" := VStr "job-2";
     "RoleArn" := VStr "arn:aws:iam::123456789012:role/SageMakerRole" ]}.

(** A job specification without a name. *)
Definition nameless : gmap string value :=
  {[ "RoleArn" := VStr "SageMakerRole" ]}.

Definition operator_of (config : gmap string value) (action : string)
  : operator :=
  _create_integer_fields
    (Operator config "aws_default" action true true 30 None []).

End Mock.

(** ** Further notions *)

(** The operator with another existence policy and another log flag. *)
Definition with_policy (self : operator) (action : string) (log : bool)
  : operator :=
  Operator (config self) (aws_conn_id self) action (wait_for_completion self)
    log (check_interval self) (max_ingestion_time self) (integer_fields self).

(** The exception a collaborator answered a call with, if it did. *)
Definition raised (e : event) : option exn :=
  match e with
  | EvExpandRole _ _ (Raise x) | EvFind _ (Raise x)
  | EvCreate _ _ _ _ (Raise x) | EvDescribe _ (Raise x) => Some x
  | _ => None
  end.

(** *** The IAM hook *)

(** The ARN of an IAM role:
    [arn:<partition>:iam::<account>:role/<path and name>]. *)
Record role_arn : Type := RoleArn {
  partition : string;
  account : string;
  role_name : string
}.

Definition arn_text (a : role_arn) : string :=
  ("arn:" ++ partition a ++ ":iam::" ++ account a ++ ":role/"
   ++ role_name a)%string.

Fixpoint contains_slash (s : string) : bool :=
  match s with
  | String c s' => bool_decide (c = "/"%char) || contains_slash s'
  | EmptyString => false
  end.

Definition is_slash (v : value) : bool :=
  match v with
  | VStr s => bool_decide (s = "/")
  | _ => false
  end.

(** ["/" in role]: a substring test on a string, a membership test on a
    list, a key test on a dict, a [TypeError] on anything else. *)
Definition slash_in (role : value) : result bool :=
  match role with
  | VStr s => Ok (contains_slash s)
  | VList l => Ok (existsb is_slash l)
  | VDict d => Ok (bool_decide (is_Some (d !! "/")))
  | VNone | VBool _ | VInt _ => Raise TypeError
  end.

(** Modelled from the spec: [AwsBaseHook.expand_role]
    (airflow/providers/amazon/aws/hooks/base_aws.py) is not part of this
    file.  It is the identity resolver of section 6: a reference that is
    fully qualified already, one with a slash in it, is returned as it
    is, and any other is taken for a role name and expanded to the ARN
    the IAM service [iam] has for that name; a failure of the service
    propagates. *)
Definition aws_expand_role {World}
    (iam : string → value → World → result role_arn * World)
    (conn_id : string) (role : value) (w : World) : result value * World :=
  match slash_in role with
  | Ok true => (Ok role, w)
  | Ok false =>
      match iam conn_id role w with
      | (Ok arn, w') => (Ok (VStr (arn_text arn)), w')
      | (Raise e, w') => (Raise e, w')
      end
  | Raise e => (Raise e, w)
  end.

(** The collaborators [hook], with the IAM hook that [expand_role]
    builds. *)
Definition with_aws_resolver {World}
    (iam : string → value → World → result role_arn * World)
    (hook : Hooks World) : Hooks World := {|
  iam_expand_role := aws_expand_role iam;
  find_processing_job_by_name := find_processing_job_by_name hook;
  create_processing_job := create_processing_job hook;
  describe_processing_job := describe_processing_job hook
|}.

(** More inputs for the test doubles. *)
Module Scenario.

(** An IAM service that knows every role name of account 123456789012
    and nothing else. *)
Definition iam (conn_id : string) (name : value) (w : Mock.World)
  : result role_arn * Mock.World :=
  match name with
  | VStr s => (Ok (RoleArn "aws" "123456789012" s), w)
  | _ => (Raise (ValueError "RoleName"), w)
  end.

(** A job specification whose role is not a string. *)
Definition bad_role : gmap string value :=
  {[ "ProcessingJobName" := VStr "job-3"; "RoleArn" := VInt 7 ]}.

(** A platform whose create-job call answers with an empty mapping. *)
Definition mute_hook : Hooks Mock.World := {|
  iam_expand_role := iam_expand_role (Mock.hook Mock.expand 200);
  find_processing_job_by_name :=
    find_processing_job_by_name (Mock.hook Mock.expand 200);
  create_processing_job := λ _ _ _ _ w, (Ok (VDict ∅), w);
  describe_processing_job :=
    describe_processing_job (Mock.hook Mock.expand 200)
|}.

End Scenario.

(** * Properties *)

(** ** Examples *)

Example py_int_2 : py_int (VStr "2") = Ok (VInt 2).
Proof. reflexivity. Qed.
Example py_int_sp : py_int (VStr " 50
") = Ok (VInt 50).
Proof. reflexivity. Qed.
Example py_int_neg : py_int (VStr "-1_000") = Ok (VInt (-1000)).
Proof. reflexivity. Qed.
Example py_int_bad : py_int (VStr "1__0") = Raise (ValueError "1__0").
Proof. reflexivity. Qed.
Example py_int_bad2 : py_int (VStr "") = Raise (ValueError "").
Proof. reflexivity. Qed.
Example py_int_bad3 : py_int (VStr "12_") = Raise (ValueError "12_").
Proof. reflexivity. Qed.
Example py_int_007 : py_int (VStr "+007") = Ok (VInt 7).
Proof. reflexivity. Qed.

Example init_job_1 :
  default_init Mock.job_1 "aws_default" = Ok (Mock.operator_of Mock.job_1 "increment").
Proof. reflexivity. Qed.

Example execute_job_1 :
  outcome (execute (Mock.hook Mock.expand 200) Mock.repr
             (Mock.operator_of Mock.job_1 "increment") []) =
  Ok {[ "Processing" := Mock.description (VStr "job-1") ]}.
Proof. vm_compute. reflexivity. Qed.

Example execute_job_1_trace :
  trace (execute (Mock.hook Mock.expand 200) Mock.repr
           (Mock.operator_of Mock.job_1 "increment") []) =
  [ EvNormalized Mock.job_1_normalized;
    EvFind (VStr "job-1") (Ok false);
    EvLogInfo "Creating SageMaker processing job %s." (VStr "job-1");
    EvCreate Mock.job_1_normalized true 30 None (Ok (Mock.response 200));
    EvDescribe (VStr "job-1") (Ok (Mock.description (VStr "job-1"))) ].
Proof. vm_compute. reflexivity. Qed.

Example execute_existing_job_trace (action : string) :
  trace (execute (Mock.hook Mock.expand 200) Mock.repr
           (Mock.operator_of Mock.job_1 action) [VStr "job-1"]) =
  [ EvNormalized Mock.job_1_normalized;
    EvFind (VStr "job-1") (Ok true) ].
Proof. vm_compute. reflexivity. Qed.

Example execute_rejected_job_trace :
  trace (execute (Mock.hook Mock.expand 500) Mock.repr
           (Mock.operator_of Mock.job_1 "increment") []) =
  [ EvNormalized Mock.job_1_normalized;
    EvFind (VStr "job-1") (Ok false);
    EvLogInfo "Creating SageMaker processing job %s." (VStr "job-1");
    EvCreate Mock.job_1_normalized true 30 None (Ok (Mock.response 500)) ].
Proof. vm_compute. reflexivity. Qed.

Example normalize_job_2 :
  outcome (preprocess_config (Mock.hook Mock.expand 200)
             (Mock.operator_of Mock.job_2 "increment") []) =
  Ok (Mock.operator_of Mock.job_2_normalized "increment").
Proof. vm_compute. reflexivity. Qed.

(** ** The exception monad *)

Lemma result_bind_Ok {A B} (r : result A) (k : A → result B) (b : B) :
  r ≫= k = Ok b ↔ ∃ a, r = Ok a ∧ k a = Ok b.
Proof.
  destruct r as [a|e]; cbn.
  - split; [eauto | by intros (? & [= <-] & ?)].
  - split; [done | by intros (? & ? & ?)].
Qed.

Lemma py_int_Ok (v v' : value) : py_int v = Ok v' → ∃ z, v' = VInt z.
Proof.
  destruct v as [ | b | z | s | l | d]; cbn; try done.
  - intros [= <-]; eauto.
  - intros [= <-]; eauto.
  - destruct (PyInt.of_string s); intros [= <-]; eauto.
Qed.

(** ** Integer-field coercion *)

Lemma parse_integer_cons (c : gmap string value) head tail :
  parse_integer c (head :: tail) =
  match c !! head with
  | Some v =>
      match tail with
      | [] => v' ← py_int v; Ok (<[head := v']> c)
      | _ :: _ =>
          match v with
          | VDict sub =>
              sub' ← parse_integer sub tail; Ok (<[head := VDict sub']> c)
          | _ => Ok c
          end
      end
  | None => Ok c
  end.
Proof. destruct tail; cbn; by destruct (c !! head) as [[]|]. Qed.

(** A successful coercion along a path either leaves the top level alone
    or overwrites the value of the first key of the path, which was
    there before. *)
Lemma parse_integer_top (c : gmap string value) head tail c' :
  parse_integer c (head :: tail) = Ok c' →
  c' = c ∨ ∃ v v', c !! head = Some v ∧ c' = <[head := v']> c.
Proof.
  rewrite parse_integer_cons.
  destruct (c !! head) as [v|] eqn:Hv; [|intros [= <-]; by left].
  destruct tail as [|h t].
  - intros (v' & _ & [= <-])%result_bind_Ok. right; eauto.
  - destruct v; try (intros [= <-]; by left).
    intros (v' & _ & [= <-])%result_bind_Ok. right; eauto.
Qed.

Lemma parse_integer_lookup_ne (c : gmap string value) field c' key :
  parse_integer c field = Ok c' →
  hd_error field ≠ Some key →
  c' !! key = c !! key.
Proof.
  destruct field as [|head tail]; [by intros [= <-]|].
  intros [->|(v & v' & _ & ->)]%parse_integer_top Hne; [done|].
  apply lookup_insert_ne. cbn in Hne. congruence.
Qed.

Lemma parse_integer_is_Some (c : gmap string value) field c' key :
  parse_integer c field = Ok c' →
  is_Some (c' !! key) ↔ is_Some (c !! key).
Proof.
  destruct field as [|head tail]; [by intros [= <-]|].
  intros [->|(v & v' & Hv & ->)]%parse_integer_top; [done|].
  destruct (decide (head = key)) as [<-|Hne].
  - rewrite lookup_insert_eq, Hv. split; eauto.
  - by rewrite lookup_insert_ne.
Qed.

Lemma parse_fields_lookup_ne (c : gmap string value) fields c' key :
  parse_fields c fields = Ok c' →
  Forall (λ field, hd_error field ≠ Some key) fields →
  c' !! key = c !! key.
Proof.
  revert c. induction fields as [|field fields IH]; intros c; cbn.
  - by intros [= <-].
  - intros (c1 & H1 & H2)%result_bind_Ok [Hne Hall]%Forall_cons.
    rewrite (IH _ H2 Hall). eauto using parse_integer_lookup_ne.
Qed.

Lemma parse_fields_is_Some (c : gmap string value) fields c' key :
  parse_fields c fields = Ok c' →
  is_Some (c' !! key) ↔ is_Some (c !! key).
Proof.
  revert c. induction fields as [|field fields IH]; intros c; cbn.
  - by intros [= <-].
  - intros (c1 & H1 & H2)%result_bind_Ok.
    rewrite (IH _ H2). eauto using parse_integer_is_Some.
Qed.

(** *** Fixed points of the coercion *)

Lemma insert_same_value (c : gmap string value) key (v v' : value) :
  c !! key = Some v → <[key := v']> c = c → v' = v.
Proof.
  intros Hv Heq. apply (f_equal (.!! key)) in Heq.
  rewrite lookup_insert_eq, Hv in Heq. congruence.
Qed.

Lemma parse_integer_fixed (c : gmap string value) field c' :
  parse_integer c field = Ok c' → fixed field c'.
Proof.
  unfold fixed. revert c c'.
  induction field as [|head tail IH]; intros c c'; [by intros [= <-]|].
  rewrite !parse_integer_cons.
  destruct (c !! head) as [v|] eqn:Hv; [|intros [= <-]; by rewrite Hv].
  destruct tail as [|h t].
  - intros (v' & [z ->]%py_int_Ok & [= <-])%result_bind_Ok.
    rewrite lookup_insert_eq. cbn. by rewrite insert_insert_eq.
  - destruct v; try (intros [= <-]; by rewrite Hv).
    intros (sub' & Hsub & [= <-])%result_bind_Ok.
    rewrite lookup_insert_eq, (IH _ _ Hsub). cbn. by rewrite insert_insert_eq.
Qed.

(** Overwriting another top-level key does not disturb a fixed path. *)
Lemma fixed_insert_ne (c : gmap string value) field key (x : value) :
  hd_error field ≠ Some key → fixed field c → fixed field (<[key := x]> c).
Proof.
  unfold fixed. destruct field as [|head tail]; [done|].
  intros Hne. assert (key ≠ head) as Hne' by (cbn in Hne; congruence).
  rewrite !parse_integer_cons, lookup_insert_ne by done.
  destruct (c !! head) as [v|] eqn:Hv; [|done].
  assert (∀ r : result value,
    r ≫= (λ v', Ok (<[head := v']> c)) = Ok c →
    r ≫= (λ v', Ok (<[head := v']> (<[key := x]> c))) = Ok (<[key := x]> c))
    as Hstep.
  { intros r (v' & -> & [= Heq])%result_bind_Ok. cbn.
    by rewrite insert_insert_ne, Heq by done. }
  destruct tail as [|h t]; [apply Hstep|].
  destruct v; try done.
  destruct (parse_integer d (h :: t)) as [sub'|e]; [|done].
  cbn. intros [= Heq]. by rewrite insert_insert_ne, Heq by done.
Qed.

Lemma parse_integer_preserves_fixed (c : gmap string value) field c' other :
  parse_integer c field = Ok c' → fixed other c → fixed other c'.
Proof.
  revert c c' other.
  induction field as [|head tail IH]; intros c c' other; [by intros [= <-]|].
  destruct other as [|head' tail']; [done|].
  destruct (decide (head' = head)) as [->|Hne]; cycle 1.
  { intros [->|(v & v' & _ & ->)]%parse_integer_top; [done|].
    apply fixed_insert_ne. cbn. congruence. }
  unfold fixed. rewrite !parse_integer_cons.
  destruct (c !! head) as [v|] eqn:Hv; [|intros [= <-]; by rewrite Hv].
  destruct tail as [|h t].
  - intros (v' & [z ->]%py_int_Ok & [= <-])%result_bind_Ok _.
    rewrite lookup_insert_eq. destruct tail'; [|done].
    cbn. by rewrite insert_insert_eq.
  - destruct v; try (intros [= <-]; by rewrite Hv).
    intros (sub' & Hsub & [= <-])%result_bind_Ok.
    rewrite lookup_insert_eq. destruct tail' as [|h' t']; [done|].
    intros (sub2 & Hsub2 & [= Heq])%result_bind_Ok.
    apply (insert_same_value _ _ _ _ Hv) in Heq. injection Heq as ->.
    rewrite (IH _ _ _ Hsub Hsub2). cbn. by rewrite insert_insert_eq.
Qed.

Lemma parse_fields_preserves_fixed (c : gmap string value) fields c' other :
  parse_fields c fields = Ok c' → fixed other c → fixed other c'.
Proof.
  revert c. induction fields as [|field fields IH]; intros c; cbn.
  - by intros [= <-].
  - intros (c1 & H1 & H2)%result_bind_Ok Hfixed.
    eauto using parse_integer_preserves_fixed.
Qed.

Lemma parse_fields_fixed (c : gmap string value) fields c' :
  parse_fields c fields = Ok c' → Forall (λ field, fixed field c') fields.
Proof.
  revert c. induction fields as [|field fields IH]; intros c; cbn.
  - constructor.
  - intros (c1 & H1 & H2)%result_bind_Ok. constructor; [|by eapply IH].
    eauto using parse_fields_preserves_fixed, parse_integer_fixed.
Qed.

Lemma parse_fields_of_fixed (c : gmap string value) fields :
  Forall (λ field, fixed field c) fields → parse_fields c fields = Ok c.
Proof.
  induction 1 as [|field fields Hfixed _ IH]; cbn; [done|].
  unfold fixed in Hfixed. by rewrite Hfixed.
Qed.

(** ** Runs of the execution monad *)

Lemma run_bind {World A B} (m : M World A) (k : A → M World B) (w : World) :
  (m ≫= k) w =
  match outcome (m w) with
  | Ok a => prepend (trace (m w)) (k a (final (m w)))
  | Raise e => Run (Raise e) (final (m w)) (trace (m w))
  end.
Proof. reflexivity. Qed.

Lemma run_eta {World A} (r : run World A) :
  Run (outcome r) (final r) (trace r) = r.
Proof. by destruct r. Qed.

Lemma prepend_nil {World A} (r : run World A) : prepend [] r = r.
Proof. apply run_eta. Qed.

Lemma prepend_Run {World A} (t t' : list event) (o : result A) (w : World) :
  prepend t (Run o w t') = Run o w (t ++ t').
Proof. done. Qed.

Lemma prepend_prepend {World A} (t t' : list event) (r : run World A) :
  prepend t (prepend t' r) = prepend (t ++ t') r.
Proof. unfold prepend; cbn. by rewrite (assoc_L (++)). Qed.

Lemma run_bind_lift {World A B} (r : result A) (k : A → M World B) (w : World) :
  (lift r ≫= k) w =
  match r with
  | Ok a => k a w
  | Raise e => Run (Raise e) w []
  end.
Proof. rewrite run_bind. destruct r; cbn; [apply prepend_nil | done]. Qed.

Lemma run_bind_emit {World B} (e : event) (k : unit → M World B) (w : World) :
  (emit e ≫= k) w = prepend [e] (k tt w).
Proof. by rewrite run_bind. Qed.

Lemma run_bind_call {World A B} (f : World → result A * World)
    (ev : result A → event) (k : A → M World B) (w : World) :
  (call f ev ≫= k) w =
  match (f w).1 with
  | Ok a => prepend [ev (Ok a)] (k a (f w).2)
  | Raise e => Run (Raise (Propagated e)) (f w).2 [ev (Raise e)]
  end.
Proof. rewrite run_bind. unfold call; cbn. by destruct (f w).1. Qed.

(** Counting events. *)
Lemma count_app (p : event → bool) (t t' : list event) :
  count p (t ++ t') = (count p t + count p t')%nat.
Proof. unfold count. by rewrite filter_app, length_app. Qed.

Lemma count_0 (p : event → bool) (t : list event) :
  Forall (λ e, p e = false) t → count p t = 0%nat.
Proof.
  unfold count. induction 1 as [|e t He _ IH]; [done|].
  rewrite filter_cons_False; [done | congruence].
Qed.

(** ** Messages *)

Lemma append_nil_r (s : string) : (s ++ "")%string = s.
Proof.
  induction s as [|c s IH]; [done|].
  change (String c (s ++ "")%string = String c s). by rewrite IH.
Qed.

Lemma creation_failed_contains (repr : value → string) (response : value) :
  contains (creation_failed_message repr response) (py_str repr response).
Proof.
  exists "Sagemaker Processing Job creation failed: ", "".
  by rewrite append_nil_r.
Qed.

Lemma duplicate_job_contains (repr : value → string) (s : string) :
  contains (duplicate_job_message repr (VStr s)) s.
Proof. by exists "A SageMaker processing job with name ", " already exists.". Qed.

Lemma py_ne_int_200 (status : value) :
  py_ne_int status 200 = false → status = VInt 200.
Proof.
  destruct status as [ | [] | z | | | ]; cbn; try done.
  intros Hz%negb_false_iff%Z.eqb_eq. by subst.
Qed.

(** ** Normalization *)

Lemma create_integer_fields_declared (self : operator) :
  declared_fields_only (_create_integer_fields self).
Proof.
  unfold declared_fields_only, _create_integer_fields, declared_integer_fields.
  case_decide; cbn [integer_fields set_integer_fields]; [done|].
  by apply list_subseteq_app_l.
Qed.

Lemma init_declared_fields_only config conn wait log interval max_time action self :
  __init__ config conn wait log interval max_time action = Ok self →
  declared_fields_only self.
Proof.
  unfold __init__. destruct (negb _); [done|].
  intros [= <-]. apply create_integer_fields_declared.
Qed.

Lemma declared_fields_head (self : operator) (key : string) :
  declared_fields_only self →
  key ≠ "ProcessingResources" → key ≠ "StoppingCondition" →
  Forall (λ field, hd_error field ≠ Some key) (integer_fields self).
Proof.
  intros Hdecl H1 H2. apply Forall_forall. intros field Hin%Hdecl.
  unfold declared_integer_fields, resource_cluster_fields,
    runtime_timeout_field in Hin. cbn in Hin.
  set_unfold in Hin. destruct Hin as [->|[->|[->|[]]]]; cbn; congruence.
Qed.

Lemma py_int_error (v : value) e : py_int v = Raise e → cast_error e.
Proof.
  unfold cast_error. destruct v as [ | b | z | s | l | d]; cbn; try done.
  - intros [= <-]; auto.
  - destruct (PyInt.of_string s); [done|]. intros [= <-]; eauto.
  - intros [= <-]; auto.
  - intros [= <-]; auto.
Qed.

Lemma parse_integer_error (c : gmap string value) field e :
  parse_integer c field = Raise e → cast_error e.
Proof.
  revert c. induction field as [|head tail IH]; intros c; [done|].
  rewrite parse_integer_cons.
  destruct (c !! head) as [v|]; [|done].
  destruct tail as [|h t].
  - destruct (py_int v) eqn:Hv; cbn; [done|].
    intros [= <-]. by eapply py_int_error.
  - destruct v; try done.
    destruct (parse_integer d (h :: t)) eqn:Hd; cbn; [done|].
    intros [= <-]. by eapply IH.
Qed.

Lemma parse_fields_error (c : gmap string value) fields e :
  parse_fields c fields = Raise e → cast_error e.
Proof.
  revert c. induction fields as [|field fields IH]; intros c; cbn; [done|].
  destruct (parse_integer c field) eqn:Hc; cbn; [by apply IH|].
  intros [= <-]. by eapply parse_integer_error.
Qed.

Lemma status_code_no_job_name_error (response : value) :
  status_code response ≠ Raise (KeyError "ProcessingJobName").
Proof.
  unfold status_code, py_getitem, getitem.
  destruct response; cbn; try done.
  destruct (_ !! "ResponseMetadata") as [[]|]; cbn; try done.
  by destruct (_ !! "HTTPStatusCode").
Qed.

Section Normalization.
Context {World : Type} (hook : Hooks World).

(** The role expansion, as a function of the configuration. *)
Lemma expand_role_run (self : operator) (w : World) :
  expand_role hook self w =
  match config self !! "RoleArn" with
  | Some role =>
      let answer := iam_expand_role hook (aws_conn_id self) role w in
      Run (match answer.1 with
           | Ok arn => Ok (set_config self (<["RoleArn" := arn]> (config self)))
           | Raise e => Raise (Propagated e)
           end)
        answer.2 [EvExpandRole (aws_conn_id self) role answer.1]
  | None => Run (Ok self) w []
  end.
Proof.
  unfold expand_role. destruct (config self !! "RoleArn") as [role|]; [|done].
  rewrite run_bind_call. by destruct (iam_expand_role _ _ _ _).1.
Qed.

Lemma expand_role_trace (self : operator) (w : World) :
  Forall (λ e, is_expand_role e = true) (trace (expand_role hook self w)).
Proof.
  rewrite expand_role_run. destruct (config self !! "RoleArn"); cbn; auto.
Qed.

(** How [preprocess_config] runs: the integer coercion, then the role
    expansion, then the mark that normalization is complete. *)
Lemma preprocess_config_run (self : operator) (w : World) :
  preprocess_config hook self w =
  match parse_config_integers self with
  | Ok self1 =>
      let r := expand_role hook self1 w in
      match outcome r with
      | Ok self2 =>
          Run (Ok self2) (final r) (trace r ++ [EvNormalized (config self2)])
      | Raise e => Run (Raise e) (final r) (trace r)
      end
  | Raise e => Run (Raise e) w []
  end.
Proof.
  unfold preprocess_config. rewrite run_bind_lift.
  destruct (parse_config_integers self) as [self1|e]; [|done].
  rewrite run_bind. cbn. destruct (outcome (expand_role hook self1 w)); [|done].
  by rewrite run_bind_emit.
Qed.

(** The trace of a normalization that completes is a sequence of role
    expansions followed by the completion mark; one that raises only
    has role expansions. *)
Lemma preprocess_config_trace (self : operator) (w : World) :
  let r := preprocess_config hook self w in
  ∃ t, Forall (λ e, is_expand_role e = true) t ∧
       match outcome r with
       | Ok self' => trace r = t ++ [EvNormalized (config self')]
       | Raise _ => trace r = t
       end.
Proof.
  cbn. rewrite preprocess_config_run.
  destruct (parse_config_integers self) as [self1|e]; cbn; [|by exists []].
  pose proof (expand_role_trace self1 w) as Ht.
  destruct (outcome (expand_role hook self1 w)); cbn; eauto.
Qed.

(** Normalization touches the configuration only: the other
    attributes of the operator are as before. *)
Lemma preprocess_config_attributes (self self' : operator) (w : World) :
  outcome (preprocess_config hook self w) = Ok self' →
  self' = set_config self (config self').
Proof.
  rewrite preprocess_config_run. unfold parse_config_integers.
  destruct (parse_fields _ _) as [c1|e]; cbn; [|done].
  rewrite expand_role_run; cbn.
  destruct (c1 !! "RoleArn") as [role|]; cbn.
  - destruct (iam_expand_role _ _ _ _).1; cbn; [|done]. by intros [= <-].
  - by intros [= <-].
Qed.

(** Normalization neither adds nor removes a top-level key. *)
Lemma preprocess_config_is_Some (self self' : operator) (w : World) key :
  outcome (preprocess_config hook self w) = Ok self' →
  is_Some (config self' !! key) ↔ is_Some (config self !! key).
Proof.
  rewrite preprocess_config_run. unfold parse_config_integers.
  destruct (parse_fields _ _) as [c1|e] eqn:Hc1; cbn; [|done].
  pose proof (parse_fields_is_Some _ _ _ key Hc1) as <-.
  rewrite expand_role_run; cbn.
  destruct (c1 !! "RoleArn") as [role|] eqn:Hrole; cbn.
  - destruct (iam_expand_role _ _ _ _).1; cbn; [|done]. intros [= <-]; cbn.
    destruct (decide ("RoleArn" = key)) as [<-|Hne].
    + rewrite lookup_insert_eq, Hrole. split; eauto.
    + by rewrite lookup_insert_ne.
  - by intros [= <-].
Qed.

(** With the declared integer fields, normalization leaves the job
    name alone. *)
Lemma preprocess_config_job_name (self self' : operator) (w : World) :
  declared_fields_only self →
  outcome (preprocess_config hook self w) = Ok self' →
  config self' !! "ProcessingJobName" = config self !! "ProcessingJobName".
Proof.
  intros Hdecl. rewrite preprocess_config_run. unfold parse_config_integers.
  destruct (parse_fields _ _) as [c1|e] eqn:Hc1; cbn; [|done].
  rewrite <-(parse_fields_lookup_ne _ _ _ "ProcessingJobName" Hc1)
    by (by apply declared_fields_head).
  rewrite expand_role_run; cbn.
  destruct (c1 !! "RoleArn") as [role|] eqn:Hrole; cbn.
  - destruct (iam_expand_role _ _ _ _).1; cbn; [|done]. intros [= <-]; cbn.
    by rewrite lookup_insert_ne.
  - by intros [= <-].
Qed.

(** Normalization raises no [KeyError]. *)
Lemma preprocess_config_no_KeyError (self : operator) (w : World) key :
  outcome (preprocess_config hook self w) ≠ Raise (KeyError key).
Proof.
  rewrite preprocess_config_run. unfold parse_config_integers.
  destruct (parse_fields _ _) as [c1|e] eqn:Hc1; cbn.
  - rewrite expand_role_run; cbn.
    destruct (c1 !! "RoleArn") as [role|]; cbn; [|done].
    by destruct (iam_expand_role _ _ _ _).1.
  - intros [= ->]. apply parse_fields_error in Hc1. by destruct Hc1 as [|[]].
Qed.

End Normalization.

(** ** The runs of [execute] *)

Section Execution.
Context {World : Type} (hook : Hooks World) (repr : value → string).

Lemma status_code_run {B} (response : value) (k : value → M World B) (w : World) :
  (lift (py_getitem response "ResponseMetadata") ≫= λ metadata,
     lift (py_getitem metadata "HTTPStatusCode") ≫= k) w =
  match status_code response with
  | Ok status => k status w
  | Raise e => Run (Raise e) w []
  end.
Proof.
  rewrite run_bind_lift. unfold status_code.
  destruct (py_getitem response "ResponseMetadata") as [metadata|e]; cbn; [|done].
  by rewrite run_bind_lift.
Qed.

(** [execute] runs in one of these ways. *)
Lemma execute_run (self : operator) (w : World) :
  execution hook repr self w (execute hook repr self w).
Proof.
  unfold execute. rewrite run_bind.
  destruct (preprocess_config hook self w) as [[self'|e] w1 t] eqn:Hp;
    cbn [outcome final trace]; [|by constructor].
  rewrite run_bind_lift. unfold getitem.
  destruct (config self' !! "ProcessingJobName") as [name|] eqn:Hname;
    [|rewrite prepend_Run, app_nil_r; by econstructor].
  rewrite run_bind_call.
  destruct (find_processing_job_by_name hook name w1) as [[[]|e] w2] eqn:Hfind;
    cbn [fst snd].
  - unfold raise. rewrite !prepend_Run, app_nil_r. eapply duplicate_job; eauto.
  - rewrite run_bind_lift, run_bind_emit, !prepend_prepend.
    rewrite <-(assoc_L (++)); cbn [app].
    eapply submitted; eauto.
    rewrite run_bind_call.
    destruct (create_processing_job hook (config self')
                (wait_for_completion self') (check_interval self')
                (max_ingestion_time self') w2) as [[response|e] w3] eqn:Hcreate;
      cbn [fst snd]; [|by apply create_raises].
    rewrite status_code_run.
    destruct (status_code response) as [status|e] eqn:Hstatus;
      [|rewrite prepend_Run; by eapply malformed_response].
    destruct (py_ne_int status 200) eqn:Hne.
    + unfold raise. rewrite prepend_Run. eapply creation_failed; eauto.
    + rewrite run_bind_lift, run_bind_call.
      destruct (describe_processing_job hook name w3) as [r w4] eqn:Hdescribe.
      cbn [fst snd].
      destruct r as [description|e]; rewrite ?prepend_Run;
        by eapply (created _ _ _ _ _ _ _ _ _ _ Hcreate Hstatus Hne Hdescribe).
  - rewrite prepend_Run. eapply find_raises; eauto.
Qed.

End Execution.

(** * The claims *)

(** ** Construction *)

(** C4. The integer-field list stored by the constructor contains the two
    resource-cluster paths; it contains the runtime-timeout path exactly
    when the configuration has a top-level [StoppingCondition] key; for a
    configuration without that key it is exactly the two resource-cluster
    paths. *)
Theorem stored_integer_fields cfg conn wait log interval max_time action self :
  __init__ cfg conn wait log interval max_time action = Ok self →
  ["ProcessingResources"; "ClusterConfig"; "InstanceCount"] ∈ integer_fields self
  ∧ ["ProcessingResources"; "ClusterConfig"; "VolumeSizeInGB"] ∈ integer_fields self
  ∧ (["StoppingCondition"; "MaxRuntimeInSeconds"] ∈ integer_fields self
     ↔ is_Some (cfg !! "StoppingCondition"))
  ∧ (cfg !! "StoppingCondition" = None →
     integer_fields self =
       [ ["ProcessingResources"; "ClusterConfig"; "InstanceCount"];
         ["ProcessingResources"; "ClusterConfig"; "VolumeSizeInGB"] ]).
Proof.
  unfold __init__. destruct (negb _); [done|]. intros [= <-].
  unfold _create_integer_fields, resource_cluster_fields, runtime_timeout_field.
  cbn [config].
  destruct (decide (is_Some (cfg !! "StoppingCondition"))) as [Hkey|Hkey];
    cbn [integer_fields set_integer_fields app].
  - repeat split; try (intros; done).
    + apply list_elem_of_here.
    + apply list_elem_of_further, list_elem_of_here.
    + intros _. do 2 apply list_elem_of_further. apply list_elem_of_here.
    + intros Hnone. rewrite Hnone in Hkey. by destruct Hkey.
  - repeat split; try done.
    + apply list_elem_of_here.
    + apply list_elem_of_further, list_elem_of_here.
    + intros Hin. exfalso. set_unfold in Hin.
      destruct Hin as [[=]|[[=]|[]]].
Qed.

Lemma stored_integer_fields_witness :
  default_init Mock.job_1 "aws_default"
    = Ok (Mock.operator_of Mock.job_1 "increment")
  ∧ integer_fields (Mock.operator_of Mock.job_1 "increment") =
      [ ["ProcessingResources"; "ClusterConfig"; "InstanceCount"];
        ["ProcessingResources"; "ClusterConfig"; "VolumeSizeInGB"] ].
Proof.
  split; [reflexivity|].
  apply (stored_integer_fields Mock.job_1 "aws_default" true true 30 None
           "increment" (Mock.operator_of Mock.job_1 "increment"));
    reflexivity.
Defined.

(** C6. An existence policy other than ['increment'] and ['fail'] makes
    the constructor raise an error whose message names the offending
    value, so that no operator exists that could be executed; with one of
    the two values the constructor succeeds and stores the value. *)
Theorem init_validates_action config conn wait log interval max_time action :
  (action ≠ "increment" → action ≠ "fail" →
   ∃ msg,
     __init__ config conn wait log interval max_time action
       = Raise (AirflowException msg)
     ∧ contains msg action)
  ∧ (action = "increment" ∨ action = "fail" →
     ∃ self,
       __init__ config conn wait log interval max_time action = Ok self
       ∧ action_if_job_exists self = action).
Proof.
  unfold __init__. split.
  - intros H1 H2. rewrite bool_decide_eq_false_2; cbn.
    + eexists; split; [done|].
      by exists ("Argument action_if_job_exists accepts only 'increment' and 'fail'. "
                 ++ "Provided value: '")%string, "'.".
    + set_unfold. intros [->|[->|[]]]; done.
  - intros Hvalid. rewrite bool_decide_eq_true_2; cbn.
    + eexists; split; [done|]. unfold _create_integer_fields.
      by case_decide.
    + set_unfold. destruct Hvalid; auto.
Qed.

Lemma init_validates_action_witness :
  ("retry" ≠ "increment" ∧ "retry" ≠ "fail"
   ∧ ∃ msg,
       __init__ Mock.job_1 "aws_default" true true 30 None "retry"
         = Raise (AirflowException msg)
       ∧ contains msg "retry")
  ∧ (("fail" = "increment" ∨ "fail" = "fail")
     ∧ ∃ self,
         __init__ Mock.job_1 "aws_default" true true 30 None "fail" = Ok self
         ∧ action_if_job_exists self = "fail").
Proof.
  split.
  - split; [discriminate|]. split; [discriminate|].
    apply (proj1 (init_validates_action Mock.job_1 "aws_default" true true 30
                    None "retry")); discriminate.
  - split; [by right|].
    apply (proj2 (init_validates_action Mock.job_1 "aws_default" true true 30
                    None "fail")). by right.
Defined.

(** ** Execution *)

Section Claims.
Context {World : Type} (hook : Hooks World) (repr : value → string).

Lemma normalization_events (self : operator) (w : World) o w1 t :
  preprocess_config hook self w = Run o w1 t →
  Forall (λ e, is_normalization e = true) t.
Proof.
  intros Hp. destruct (preprocess_config_trace hook self w) as (t0 & Ht0 & Ht).
  rewrite Hp in Ht. cbn in Ht.
  assert (Forall (λ e, is_normalization e = true) t0) as Ht0'.
  { eapply Forall_impl; [done|]. intros e He. unfold is_normalization.
    by rewrite He. }
  destruct o; subst t; [|done].
  apply Forall_app; split; [done|]. by repeat constructor.
Qed.

Lemma normalization_count (p : event → bool) (self : operator) (w : World) o w1 t :
  (∀ e, is_normalization e = true → p e = false) →
  preprocess_config hook self w = Run o w1 t →
  count p t = 0%nat.
Proof.
  intros Hp Hrun. apply count_0.
  eapply Forall_impl; [by eapply normalization_events|]. auto.
Qed.

Lemma normalization_calls (self : operator) (w : World) o w1 t :
  preprocess_config hook self w = Run o w1 t →
  count is_find t = 0%nat ∧ count is_create t = 0%nat
  ∧ count is_describe t = 0%nat.
Proof.
  intros Hp. repeat split; by eapply normalization_count; [intros []|].
Qed.

Lemma normalization_not_elem (self : operator) (w : World) o w1 t e :
  preprocess_config hook self w = Run o w1 t →
  is_normalization e = false →
  e ∉ t.
Proof.
  intros Hrun He Hin.
  pose proof (normalization_events _ _ _ _ _ Hrun) as Hall.
  rewrite Forall_forall in Hall. specialize (Hall _ Hin). congruence.
Qed.

Lemma normalization_steps (self : operator) (w : World) o w1 t :
  preprocess_config hook self w = Run o w1 t →
  steps t = match o with Ok _ => [Normalize] | Raise _ => [] end.
Proof.
  intros Hp. destruct (preprocess_config_trace hook self w) as (t0 & Ht0 & Ht).
  rewrite Hp in Ht. cbn in Ht.
  assert (steps t0 = []) as Hnil.
  { clear Ht. induction Ht0 as [|e t0 He _ IH]; [done|].
    destruct e; try done. }
  unfold steps in *. destruct o; subst t; [|done].
  by rewrite omap_app, Hnil.
Qed.

Lemma normalization_raised_not_normalized (self : operator) (w : World) e w1 t c :
  preprocess_config hook self w = Run (Raise e) w1 t →
  EvNormalized c ∉ t.
Proof.
  intros Hp Hin. destruct (preprocess_config_trace hook self w) as (t0 & Ht0 & Ht).
  rewrite Hp in Ht. cbn in Ht. subst t0.
  rewrite Forall_forall in Ht0. by specialize (Ht0 _ Hin).
Qed.

Lemma normalization_completed_last (self self' : operator) (w : World) w1 t c :
  preprocess_config hook self w = Run (Ok self') w1 t →
  EvNormalized c ∈ t →
  Raise (KeyError "ProcessingJobName")
    = Raise (A := gmap string value) (KeyError "ProcessingJobName")
  ∧ ∃ t0, t = t0 ++ [EvNormalized c].
Proof.
  intros Hp Hin. split; [done|].
  destruct (preprocess_config_trace hook self w) as (t0 & Ht0 & Ht).
  rewrite Hp in Ht. cbn in Ht. subst t. exists t0.
  apply elem_of_app in Hin as [Hin|Hin].
  - rewrite Forall_forall in Ht0. by specialize (Ht0 _ Hin).
  - apply list_elem_of_singleton in Hin. by injection Hin as ->.
Qed.

(** An execution with an existence check that answers yes. *)
Lemma existing_job_run (self : operator) (w : World) (name : value) :
  EvFind name (Ok true) ∈ trace (execute hook repr self w) →
  ∃ self' w1 t w2,
    preprocess_config hook self w = Run (Ok self') w1 t
    ∧ config self' !! "ProcessingJobName" = Some name
    ∧ execute hook repr self w =
        Run (Raise (AirflowException (duplicate_job_message repr name))) w2
          (t ++ [EvFind name (Ok true)]).
Proof.
  destruct (execute_run hook repr self w)
    as [e w1 t Hp | self' w1 t Hp Hname | self' w1 t n e w2 Hp Hname Hfind
       | self' w1 t n w2 Hp Hname Hfind | self' w1 t n w2 r Hp Hname Hfind Hsub];
    cbn [outcome trace prepend].
  - intros Hin. by eapply normalization_not_elem in Hin.
  - intros Hin. by eapply normalization_not_elem in Hin.
  - intros [Hin|Hin]%elem_of_app.
    + by eapply normalization_not_elem in Hin.
    + by apply list_elem_of_singleton in Hin.
  - intros [Hin|Hin]%elem_of_app.
    + by eapply normalization_not_elem in Hin.
    + apply list_elem_of_singleton in Hin. injection Hin as ->.
      by exists self', w1, t, w2.
  - intros [[Hin|Hin]%elem_of_app|Hin]%elem_of_app.
    + by eapply normalization_not_elem in Hin.
    + set_unfold in Hin. by destruct Hin as [|[|[]]].
    + destruct Hsub; set_unfold in Hin; by intuition.
Qed.

(** An execution with a create-job call that returns. *)
Lemma created_job_run (self : operator) (w : World)
    c wait interval max_time (response : value) :
  EvCreate c wait interval max_time (Ok response)
    ∈ trace (execute hook repr self w) →
  ∃ self' w1 t name w2 r,
    preprocess_config hook self w = Run (Ok self') w1 t
    ∧ config self' !! "ProcessingJobName" = Some name
    ∧ submission hook repr self' name w2 r
    ∧ EvCreate c wait interval max_time (Ok response) ∈ trace r
    ∧ execute hook repr self w =
        prepend
          (t ++ [EvFind name (Ok false);
                 EvLogInfo "Creating SageMaker processing job %s." name])
          r.
Proof.
  destruct (execute_run hook repr self w)
    as [e w1 t Hp | self' w1 t Hp Hname | self' w1 t n e w2 Hp Hname Hfind
       | self' w1 t n w2 Hp Hname Hfind | self' w1 t n w2 r Hp Hname Hfind Hsub];
    cbn [outcome trace prepend].
  - intros Hin. by eapply normalization_not_elem in Hin.
  - intros Hin. by eapply normalization_not_elem in Hin.
  - intros [Hin|Hin]%elem_of_app.
    + by eapply normalization_not_elem in Hin.
    + by apply list_elem_of_singleton in Hin.
  - intros [Hin|Hin]%elem_of_app.
    + by eapply normalization_not_elem in Hin.
    + by apply list_elem_of_singleton in Hin.
  - intros [[Hin|Hin]%elem_of_app|Hin]%elem_of_app.
    + by eapply normalization_not_elem in Hin.
    + set_unfold in Hin. by destruct Hin as [|[|[]]].
    + by exists self', w1, t, n, w2, r.
Qed.

(** C2. With the existence policy ['fail'], an execution in which the
    platform reports that a job of the configured name exists raises
    the duplicate-job error and issues no create-job call. *)
Theorem execute_fail_on_existing_job (self : operator) (w : World) (name : value) :
  action_if_job_exists self = "fail" →
  EvFind name (Ok true) ∈ trace (execute hook repr self w) →
  outcome (execute hook repr self w)
    = Raise (AirflowException (duplicate_job_message repr name))
  ∧ count is_create (trace (execute hook repr self w)) = 0%nat.
Proof.
  intros _ (self' & w1 & t & w2 & Hp & _ & ->)%existing_job_run.
  split; [done|]. cbn [trace]. rewrite count_app.
  by rewrite (normalization_count is_create _ _ _ _ _ ltac:(by intros []) Hp).
Qed.

(** C3. An execution whose create-job call answers with a status
    code other than 200 raises the submission error, whose message
    contains the raw response, and so returns no result; the
    wait-for-completion flag passed on is the operator's own, whatever
    it is. *)
Theorem execute_raises_on_failed_creation (self : operator) (w : World)
    c wait interval max_time (response status : value) :
  EvCreate c wait interval max_time (Ok response)
    ∈ trace (execute hook repr self w) →
  status_code response = Ok status →
  status ≠ VInt 200 →
  wait = wait_for_completion self
  ∧ ∃ msg,
      outcome (execute hook repr self w) = Raise (AirflowException msg)
      ∧ contains msg (py_str repr response).
Proof.
  intros (self' & w1 & t & name & w2 & r & Hp & _ & Hsub & Hin & ->)%created_job_run.
  assert (wait_for_completion self' = wait_for_completion self) as Hwait.
  { erewrite (preprocess_config_attributes hook self self' w);
      [done | by rewrite Hp]. }
  intros Hstatus Hne. cbn [outcome prepend].
  destruct Hsub as [e w3 Hcreate | resp w3 e Hcreate Hcode
                   | resp w3 st Hcreate Hcode Hfail
                   | resp w3 st d w4 Hcreate Hcode Hfail Hdescribe];
    cbn [trace outcome] in *; unfold create_event in Hin.
  - by apply list_elem_of_singleton in Hin.
  - apply list_elem_of_singleton in Hin. injection Hin as -> -> -> -> ->.
    congruence.
  - apply list_elem_of_singleton in Hin. injection Hin as -> -> -> -> ->.
    split; [done|]. eexists; split; [done|]. apply creation_failed_contains.
  - set_unfold in Hin. destruct Hin as [Hin|[Hin|[]]]; [|done].
    injection Hin as -> -> -> -> ->.
    rewrite Hcode in Hstatus. injection Hstatus as ->.
    by apply py_ne_int_200 in Hfail.
Qed.

(** C7. An execution whose create-job call answers with status 200
    issues exactly one describe call, for the job name of the submitted
    configuration, whatever the wait-for-completion flag; what the call
    returns is the result of the execution, under the key
    ['Processing'] (and what it raises passes through). *)
Theorem execute_describes_created_job (self : operator) (w : World)
    c wait interval max_time (response : value) :
  EvCreate c wait interval max_time (Ok response)
    ∈ trace (execute hook repr self w) →
  status_code response = Ok (VInt 200) →
  ∃ name r,
    c !! "ProcessingJobName" = Some name
    ∧ filter (λ e, is_describe e = true) (trace (execute hook repr self w))
        = [EvDescribe name r]
    ∧ match r with
      | Ok description =>
          outcome (execute hook repr self w)
            = Ok {[ "Processing" := description ]}
      | Raise e => outcome (execute hook repr self w) = Raise (Propagated e)
      end.
Proof.
  intros (self' & w1 & t & name & w2 & r & Hp & Hname & Hsub & Hin & ->)%created_job_run.
  intros Hstatus. cbn [outcome trace prepend].
  assert (filter (λ e, is_describe e = true) t = []) as Ht.
  { apply length_zero_iff_nil.
    apply (normalization_count is_describe _ _ _ _ _ ltac:(by intros []) Hp). }
  rewrite !filter_app, Ht.
  destruct Hsub as [e w3 Hcreate | resp w3 e Hcreate Hcode
                   | resp w3 st Hcreate Hcode Hfail
                   | resp w3 st d w4 Hcreate Hcode Hfail Hdescribe];
    cbn [trace outcome] in *; unfold create_event in Hin.
  - by apply list_elem_of_singleton in Hin.
  - apply list_elem_of_singleton in Hin. injection Hin as -> -> -> -> ->.
    congruence.
  - apply list_elem_of_singleton in Hin. injection Hin as -> -> -> -> ->.
    rewrite Hcode in Hstatus. by injection Hstatus as ->.
  - set_unfold in Hin. destruct Hin as [Hin|[Hin|[]]]; [|done].
    injection Hin as -> -> -> -> ->.
    exists name, d. split; [done|]. split; [done|]. by destruct d.
Qed.

(** C9. When an execution aborts because the platform reports that a
    job of the configured name exists, the message of the error
    contains the string stored under ['ProcessingJobName'] in the
    configuration, verbatim. *)
Theorem duplicate_job_error_names_job (self : operator) (w : World)
    (name : value) (s : string) :
  declared_fields_only self →
  config self !! "ProcessingJobName" = Some (VStr s) →
  EvFind name (Ok true) ∈ trace (execute hook repr self w) →
  name = VStr s
  ∧ ∃ msg,
      outcome (execute hook repr self w) = Raise (AirflowException msg)
      ∧ contains msg s.
Proof.
  intros Hdecl Hs (self' & w1 & t & w2 & Hp & Hname & ->)%existing_job_run.
  rewrite (preprocess_config_job_name hook self self' w Hdecl) in Hname
    by (by rewrite Hp).
  rewrite Hs in Hname. injection Hname as <-.
  split; [done|]. eexists; split; [done|]. apply duplicate_job_contains.
Qed.

(** C10. Without a top-level ['ProcessingJobName'] key the execution
    raises and makes no existence-check, create-job or describe call.
    It fails after the normalization step: everything normalization does
    (its events, its effect on the platform) is done first and nothing
    else is; when normalization completes, what is raised is the
    [KeyError] of the lookup, right after the completion of
    normalization, and when normalization raises, that is what the
    execution raises.  With the key present the execution never ends
    with that [KeyError]. *)
Theorem job_name_lookup (self : operator) (w : World) :
  (config self !! "ProcessingJobName" = None →
   (∃ e, outcome (execute hook repr self w) = Raise e)
   ∧ count is_find (trace (execute hook repr self w)) = 0%nat
   ∧ count is_create (trace (execute hook repr self w)) = 0%nat
   ∧ count is_describe (trace (execute hook repr self w)) = 0%nat
   ∧ (∀ c, EvNormalized c ∈ trace (execute hook repr self w) →
        outcome (execute hook repr self w)
          = Raise (KeyError "ProcessingJobName")
        ∧ ∃ t, trace (execute hook repr self w) = t ++ [EvNormalized c])
   ∧ trace (execute hook repr self w) = trace (preprocess_config hook self w)
   ∧ final (execute hook repr self w) = final (preprocess_config hook self w)
   ∧ (∀ self', outcome (preprocess_config hook self w) = Ok self' →
        outcome (execute hook repr self w)
          = Raise (KeyError "ProcessingJobName")
        ∧ ∃ t, trace (execute hook repr self w)
               = t ++ [EvNormalized (config self')])
   ∧ (∀ e, outcome (preprocess_config hook self w) = Raise e →
        outcome (execute hook repr self w) = Raise e))
  ∧ (is_Some (config self !! "ProcessingJobName") →
     outcome (execute hook repr self w) ≠ Raise (KeyError "ProcessingJobName")).
Proof.
  destruct (execute_run hook repr self w)
    as [e w1 t Hp | self' w1 t Hp Hname | self' w1 t n e w2 Hp Hname Hfind
       | self' w1 t n w2 Hp Hname Hfind | self' w1 t n w2 r Hp Hname Hfind Hsub];
    cbn [outcome final trace prepend].
  - split.
    + intros _. rewrite Hp. cbn [outcome final trace].
      destruct (normalization_calls _ _ _ _ _ Hp) as (-> & -> & ->).
      split; [eauto|]. do 3 (split; [done|]).
      split.
      { intros c Hin. exfalso.
        eapply normalization_raised_not_normalized; eauto. }
      split; [done|]. split; [done|].
      split; [by intros self' [=] | by intros e' [= ->]].
    + intros _ [= ->].
      eapply (preprocess_config_no_KeyError hook self w). by rewrite Hp.
  - split.
    + intros _. rewrite Hp. cbn [outcome final trace].
      destruct (normalization_calls _ _ _ _ _ Hp) as (-> & -> & ->).
      split; [eauto|]. do 3 (split; [done|]).
      split.
      { intros c Hin. eapply normalization_completed_last; eauto. }
      split; [done|]. split; [done|].
      split; [|by intros e' [=]].
      intros self'' [= <-]. split; [done|].
      destruct (preprocess_config_trace hook self w) as (t0 & _ & Ht).
      rewrite Hp in Ht. cbn in Ht. eauto.
    + intros Hsome. exfalso.
      apply (preprocess_config_is_Some hook self self' w "ProcessingJobName")
        in Hsome; [|by rewrite Hp].
      rewrite Hname in Hsome. by destruct Hsome.
  - split; [|done]. intros Hnone.
    assert (is_Some (config self !! "ProcessingJobName")) as [? ?]; [|congruence].
    apply (preprocess_config_is_Some hook self self' w); [by rewrite Hp|eauto].
  - split; [|done]. intros Hnone.
    assert (is_Some (config self !! "ProcessingJobName")) as [? ?]; [|congruence].
    apply (preprocess_config_is_Some hook self self' w); [by rewrite Hp|eauto].
  - split.
    + intros Hnone.
      assert (is_Some (config self !! "ProcessingJobName")) as [? ?]; [|congruence].
      apply (preprocess_config_is_Some hook self self' w); [by rewrite Hp|eauto].
    + intros _. destruct Hsub as [| ? ? ? ? Hcode | |? ? ? []]; cbn; try done.
      intros [= ->]. by apply status_code_no_job_name_error in Hcode.
Qed.

(** C8. In every execution the completion of normalization, the
    existence check and the create-job call occur in this order and at
    most once each, each only after the one before it; everything
    normalization does comes before everything else; at most one
    create-job call is issued. *)
Theorem execute_order (self : operator) (w : World) :
  steps (trace (execute hook repr self w)) `prefix_of` [Normalize; Check; Submit]
  ∧ (∃ t rest,
       trace (execute hook repr self w) = t ++ rest
       ∧ Forall (λ e, is_normalization e = true) t
       ∧ Forall (λ e, is_normalization e = false) rest)
  ∧ (count is_create (trace (execute hook repr self w)) ≤ 1)%nat.
Proof.
  destruct (execute_run hook repr self w)
    as [e w1 t Hp | self' w1 t Hp Hname | self' w1 t n e w2 Hp Hname Hfind
       | self' w1 t n w2 Hp Hname Hfind | self' w1 t n w2 r Hp Hname Hfind Hsub];
    cbn [outcome trace prepend];
    pose proof (normalization_events _ _ _ _ _ Hp) as Hnorm;
    pose proof (normalization_steps _ _ _ _ _ Hp) as Hsteps;
    pose proof (normalization_count is_create _ _ _ _ _ ltac:(by intros []) Hp)
      as Hcount;
    unfold steps in *; rewrite ?omap_app, ?count_app, ?Hsteps, ?Hcount.
  - split; [by eexists|]. split; [|lia].
    exists t, []. by rewrite app_nil_r.
  - split; [by eexists|]. split; [|lia].
    exists t, []. by rewrite app_nil_r.
  - split; [by exists [Submit]|]. split; [|compute; lia].
    eexists t, _. split; [done|]. split; [done|]. by repeat constructor.
  - split; [by exists [Submit]|]. split; [|compute; lia].
    eexists t, _. split; [done|]. split; [done|]. by repeat constructor.
  - split; [|split].
    + destruct Hsub; by exists [].
    + eexists t, _. rewrite <-(assoc_L (++)). split; [done|]. split; [done|].
      destruct Hsub; cbn; by repeat constructor.
    + destruct Hsub; compute; lia.
Qed.

(** For an operator with the declared integer fields, and a resolver
    that returns unchanged every reference it has produced, normalizing
    a normalized job specification gives that same specification
    back. *)
Theorem normalization_idempotent (self self1 : operator) (w w' : World) :
  resolver_idempotent hook →
  declared_fields_only self →
  outcome (preprocess_config hook self w) = Ok self1 →
  outcome (preprocess_config hook self1 w') = Ok self1.
Proof.
  intros Hres Hdecl. rewrite !preprocess_config_run.
  unfold parse_config_integers.
  destruct (parse_fields (config self) _) as [c1|e] eqn:Hc1; cbn; [|done].
  pose proof (parse_fields_fixed _ _ _ Hc1) as Hfixed.
  rewrite !expand_role_run; cbn.
  destruct (c1 !! "RoleArn") as [role|] eqn:Hrole; cbn.
  - destruct (iam_expand_role hook (aws_conn_id self) role w) as [[arn|e] w2]
      eqn:Hexpand; cbn; [|done].
    intros [= <-]; cbn.
    rewrite parse_fields_of_fixed; cbn.
    + rewrite expand_role_run; cbn. rewrite lookup_insert_eq; cbn.
      rewrite (Hres _ _ _ _ _ Hexpand w'); cbn.
      unfold set_config; cbn. by rewrite insert_insert_eq.
    + pose proof (declared_fields_head self "RoleArn" Hdecl) as Hhead.
      rewrite Forall_forall in Hfixed, Hhead |- *.
      intros field Hin. apply fixed_insert_ne; auto.
  - intros [= <-]; cbn.
    rewrite parse_fields_of_fixed by done; cbn.
    rewrite expand_role_run; cbn. by rewrite Hrole.
Qed.

End Claims.

(** ** Idempotence of normalization *)

Lemma contains_slash_app (s t : string) :
  contains_slash (s ++ t)%string = contains_slash s || contains_slash t.
Proof.
  induction s as [|c s IH]; [done|].
  change (contains_slash (String c (s ++ t)%string)
          = contains_slash (String c s) || contains_slash t).
  cbn [contains_slash]. by rewrite IH, orb_assoc.
Qed.

Lemma arn_text_slash (a : role_arn) : contains_slash (arn_text a) = true.
Proof.
  unfold arn_text. rewrite !contains_slash_app.
  change (contains_slash ":role/") with true.
  by rewrite orb_true_l, !orb_true_r.
Qed.

(** The IAM hook returns unchanged every reference it has produced. *)
Lemma aws_resolver_idempotent {World}
    (iam : string → value → World → result role_arn * World)
    (hook : Hooks World) :
  resolver_idempotent (with_aws_resolver iam hook).
Proof.
  intros conn_id role w arn w' Hexpand w''.
  cbn [iam_expand_role with_aws_resolver] in *. unfold aws_expand_role in *.
  destruct (slash_in role) as [[|]|e] eqn:Hslash.
  - injection Hexpand as <- <-. by rewrite Hslash.
  - destruct (iam conn_id role w) as [[a|e] w1]; [|done].
    injection Hexpand as <- <-. cbn [slash_in]. by rewrite arn_text_slash.
  - done.
Qed.

(** C5. Normalization is idempotent: for an operator with the integer
    fields the constructor declares, and with the IAM hook that
    [expand_role] builds, normalizing a normalized job specification
    gives that same specification back, whatever the state of the
    platform; so applying the normalization pass twice ends as applying
    it once does, with the same specification or with the same error. *)
Theorem preprocess_config_twice {World}
    (iam : string → value → World → result role_arn * World)
    (hook : Hooks World) (self : operator) (w : World) :
  declared_fields_only self →
  (∀ self1,
     outcome (preprocess_config (with_aws_resolver iam hook) self w) = Ok self1 →
     ∀ w', outcome (preprocess_config (with_aws_resolver iam hook) self1 w')
           = Ok self1)
  ∧ outcome ((preprocess_config (with_aws_resolver iam hook) self
              ≫= preprocess_config (with_aws_resolver iam hook)) w)
    = outcome (preprocess_config (with_aws_resolver iam hook) self w).
Proof.
  intros Hdecl.
  assert (∀ self1,
    outcome (preprocess_config (with_aws_resolver iam hook) self w) = Ok self1 →
    ∀ w', outcome (preprocess_config (with_aws_resolver iam hook) self1 w')
          = Ok self1) as Hagain.
  { intros self1 Hfirst w'.
    exact (normalization_idempotent (with_aws_resolver iam hook) self self1
             w w' (aws_resolver_idempotent iam hook) Hdecl Hfirst). }
  split; [exact Hagain|]. rewrite run_bind.
  destruct (outcome (preprocess_config (with_aws_resolver iam hook) self w))
    as [self1|e] eqn:Hfirst; [|done].
  cbn [outcome prepend]. by apply Hagain.
Qed.

Example normalize_job_2_aws :
  outcome (preprocess_config
             (with_aws_resolver Scenario.iam (Mock.hook Mock.expand 200))
             (Mock.operator_of Mock.job_2 "increment") []) =
  Ok (Mock.operator_of Mock.job_2_normalized "increment").
Proof. vm_compute. reflexivity. Qed.

Lemma preprocess_config_twice_witness :
  declared_fields_only (Mock.operator_of Mock.job_2 "increment")
  ∧ outcome (preprocess_config
               (with_aws_resolver Scenario.iam (Mock.hook Mock.expand 200))
               (Mock.operator_of Mock.job_2 "increment") [])
    = Ok (Mock.operator_of Mock.job_2_normalized "increment")
  ∧ outcome (preprocess_config
               (with_aws_resolver Scenario.iam (Mock.hook Mock.expand 200))
               (Mock.operator_of Mock.job_2_normalized "increment")
               [VStr "job-1"])
    = Ok (Mock.operator_of Mock.job_2_normalized "increment")
  ∧ outcome ((preprocess_config
                (with_aws_resolver Scenario.iam (Mock.hook Mock.expand 200))
                (Mock.operator_of Mock.job_2 "increment")
              ≫= preprocess_config
                   (with_aws_resolver Scenario.iam (Mock.hook Mock.expand 200)))
               [])
    = outcome (preprocess_config
                 (with_aws_resolver Scenario.iam (Mock.hook Mock.expand 200))
                 (Mock.operator_of Mock.job_2 "increment") []).
Proof.
  split; [apply create_integer_fields_declared|].
  split; [exact normalize_job_2_aws|].
  destruct (preprocess_config_twice Scenario.iam (Mock.hook Mock.expand 200)
              (Mock.operator_of Mock.job_2 "increment") []
              (create_integer_fields_declared _)) as [Hagain Htwice].
  split; [exact (Hagain _ normalize_job_2_aws [VStr "job-1"]) | exact Htwice].
Defined.

(** ** The claims on the test doubles *)

(** C1.  With the default policy ['increment'] and a job named [job-1]
    already on the platform, [execute] raises the duplicate-job error
    right after the existence check and issues no create-job call: the
    guard does not consult the policy. *)
Theorem increment_policy_existing_job_raises :
  action_if_job_exists (Mock.operator_of Mock.job_1 "increment") = "increment"
  ∧ trace (execute (Mock.hook Mock.expand 200) Mock.repr
             (Mock.operator_of Mock.job_1 "increment") [VStr "job-1"])
    = [ EvNormalized Mock.job_1_normalized; EvFind (VStr "job-1") (Ok true) ]
  ∧ outcome (execute (Mock.hook Mock.expand 200) Mock.repr
               (Mock.operator_of Mock.job_1 "increment") [VStr "job-1"])
    = Raise (AirflowException
               "A SageMaker processing job with name job-1 already exists.").
Proof. split; [reflexivity|]. split; vm_compute; reflexivity. Qed.

Lemma execute_fail_on_existing_job_witness :
  action_if_job_exists (Mock.operator_of Mock.job_1 "fail") = "fail"
  ∧ EvFind (VStr "job-1") (Ok true)
      ∈ trace (execute (Mock.hook Mock.expand 200) Mock.repr
                 (Mock.operator_of Mock.job_1 "fail") [VStr "job-1"])
  ∧ outcome (execute (Mock.hook Mock.expand 200) Mock.repr
               (Mock.operator_of Mock.job_1 "fail") [VStr "job-1"])
      = Raise (AirflowException
                 (duplicate_job_message Mock.repr (VStr "job-1")))
  ∧ count is_create
      (trace (execute (Mock.hook Mock.expand 200) Mock.repr
                (Mock.operator_of Mock.job_1 "fail") [VStr "job-1"])) = 0%nat.
Proof.
  assert (EvFind (VStr "job-1") (Ok true)
            ∈ trace (execute (Mock.hook Mock.expand 200) Mock.repr
                       (Mock.operator_of Mock.job_1 "fail") [VStr "job-1"]))
    as Hin.
  { rewrite execute_existing_job_trace.
    apply list_elem_of_further, list_elem_of_here. }
  split; [reflexivity|]. split; [exact Hin|].
  apply (execute_fail_on_existing_job (Mock.hook Mock.expand 200) Mock.repr
           (Mock.operator_of Mock.job_1 "fail") [VStr "job-1"] (VStr "job-1"));
    [reflexivity | exact Hin].
Defined.

Lemma execute_raises_on_failed_creation_witness :
  EvCreate Mock.job_1_normalized true 30 None (Ok (Mock.response 500))
    ∈ trace (execute (Mock.hook Mock.expand 500) Mock.repr
               (Mock.operator_of Mock.job_1 "increment") [])
  ∧ status_code (Mock.response 500) = Ok (VInt 500)
  ∧ VInt 500 ≠ VInt 200
  ∧ true = wait_for_completion (Mock.operator_of Mock.job_1 "increment")
  ∧ ∃ msg,
      outcome (execute (Mock.hook Mock.expand 500) Mock.repr
                 (Mock.operator_of Mock.job_1 "increment") [])
        = Raise (AirflowException msg)
      ∧ contains msg (py_str Mock.repr (Mock.response 500)).
Proof.
  assert (EvCreate Mock.job_1_normalized true 30 None (Ok (Mock.response 500))
            ∈ trace (execute (Mock.hook Mock.expand 500) Mock.repr
                       (Mock.operator_of Mock.job_1 "increment") []))
    as Hin.
  { rewrite execute_rejected_job_trace.
    do 3 apply list_elem_of_further. apply list_elem_of_here. }
  split; [exact Hin|]. split; [reflexivity|]. split; [discriminate|].
  apply (execute_raises_on_failed_creation (Mock.hook Mock.expand 500)
           Mock.repr (Mock.operator_of Mock.job_1 "increment") []
           Mock.job_1_normalized true 30 None (Mock.response 500) (VInt 500));
    [exact Hin | reflexivity | discriminate].
Defined.

Lemma execute_describes_created_job_witness :
  EvCreate Mock.job_1_normalized true 30 None (Ok (Mock.response 200))
    ∈ trace (execute (Mock.hook Mock.expand 200) Mock.repr
               (Mock.operator_of Mock.job_1 "increment") [])
  ∧ status_code (Mock.response 200) = Ok (VInt 200)
  ∧ ∃ name r,
      Mock.job_1_normalized !! "ProcessingJobName" = Some name
      ∧ filter (λ e, is_describe e = true)
          (trace (execute (Mock.hook Mock.expand 200) Mock.repr
                    (Mock.operator_of Mock.job_1 "increment") []))
          = [EvDescribe name r]
      ∧ match r with
        | Ok description =>
            outcome (execute (Mock.hook Mock.expand 200) Mock.repr
                       (Mock.operator_of Mock.job_1 "increment") [])
              = Ok {[ "Processing" := description ]}
        | Raise e =>
            outcome (execute (Mock.hook Mock.expand 200) Mock.repr
                       (Mock.operator_of Mock.job_1 "increment") [])
              = Raise (Propagated e)
        end.
Proof.
  assert (EvCreate Mock.job_1_normalized true 30 None (Ok (Mock.response 200))
            ∈ trace (execute (Mock.hook Mock.expand 200) Mock.repr
                       (Mock.operator_of Mock.job_1 "increment") []))
    as Hin.
  { rewrite execute_job_1_trace.
    do 3 apply list_elem_of_further. apply list_elem_of_here. }
  split; [exact Hin|]. split; [reflexivity|].
  apply (execute_describes_created_job (Mock.hook Mock.expand 200)
           Mock.repr (Mock.operator_of Mock.job_1 "increment") []
           Mock.job_1_normalized true 30 None (Mock.response 200));
    [exact Hin | reflexivity].
Defined.

Lemma duplicate_job_error_names_job_witness :
  declared_fields_only (Mock.operator_of Mock.job_1 "fail")
  ∧ config (Mock.operator_of Mock.job_1 "fail") !! "ProcessingJobName"
      = Some (VStr "job-1")
  ∧ EvFind (VStr "job-1") (Ok true)
      ∈ trace (execute (Mock.hook Mock.expand 200) Mock.repr
                 (Mock.operator_of Mock.job_1 "fail") [VStr "job-1"])
  ∧ VStr "job-1" = VStr "job-1"
  ∧ ∃ msg,
      outcome (execute (Mock.hook Mock.expand 200) Mock.repr
                 (Mock.operator_of Mock.job_1 "fail") [VStr "job-1"])
        = Raise (AirflowException msg)
      ∧ contains msg "job-1".
Proof.
  assert (EvFind (VStr "job-1") (Ok true)
            ∈ trace (execute (Mock.hook Mock.expand 200) Mock.repr
                       (Mock.operator_of Mock.job_1 "fail") [VStr "job-1"]))
    as Hin.
  { rewrite execute_existing_job_trace.
    apply list_elem_of_further, list_elem_of_here. }
  split; [apply create_integer_fields_declared|].
  split; [vm_compute; reflexivity|]. split; [exact Hin|].
  apply (duplicate_job_error_names_job (Mock.hook Mock.expand 200) Mock.repr
           (Mock.operator_of Mock.job_1 "fail") [VStr "job-1"]
           (VStr "job-1") "job-1");
    [apply create_integer_fields_declared | vm_compute; reflexivity | exact Hin].
Defined.

Example normalize_nameless :
  outcome (preprocess_config (Mock.hook Mock.expand 200)
             (Mock.operator_of Mock.nameless "increment") []) =
  Ok (set_config (Mock.operator_of Mock.nameless "increment")
        {[ "RoleArn" :=
             VStr "arn:aws:iam::123456789012:role/SageMakerRole" ]}).
Proof. vm_compute. reflexivity. Qed.

Lemma job_name_lookup_witness :
  (config (Mock.operator_of Mock.nameless "increment") !! "ProcessingJobName"
     = None
   ∧ outcome (preprocess_config (Mock.hook Mock.expand 200)
                (Mock.operator_of Mock.nameless "increment") [])
       = Ok (set_config (Mock.operator_of Mock.nameless "increment")
               {[ "RoleArn" :=
                    VStr "arn:aws:iam::123456789012:role/SageMakerRole" ]})
   ∧ outcome (execute (Mock.hook Mock.expand 200) Mock.repr
                (Mock.operator_of Mock.nameless "increment") [])
       = Raise (KeyError "ProcessingJobName")
   ∧ trace (execute (Mock.hook Mock.expand 200) Mock.repr
              (Mock.operator_of Mock.nameless "increment") [])
       = trace (preprocess_config (Mock.hook Mock.expand 200)
                  (Mock.operator_of Mock.nameless "increment") [])
   ∧ count is_find
       (trace (execute (Mock.hook Mock.expand 200) Mock.repr
                 (Mock.operator_of Mock.nameless "increment") [])) = 0%nat)
  ∧ (is_Some (config (Mock.operator_of Mock.job_1 "increment")
                !! "ProcessingJobName")
     ∧ outcome (execute (Mock.hook Mock.expand 200) Mock.repr
                  (Mock.operator_of Mock.job_1 "increment") [])
         ≠ Raise (KeyError "ProcessingJobName")).
Proof.
  split.
  - split; [vm_compute; reflexivity|]. split; [exact normalize_nameless|].
    destruct (proj1 (job_name_lookup (Mock.hook Mock.expand 200) Mock.repr
                       (Mock.operator_of Mock.nameless "increment") []))
      as (_ & Hfind & _ & _ & _ & Htrace & _ & Hdone & _);
      [vm_compute; reflexivity|].
    split; [exact (proj1 (Hdone _ normalize_nameless))|].
    split; [exact Htrace | exact Hfind].
  - assert (is_Some (config (Mock.operator_of Mock.job_1 "increment")
                       !! "ProcessingJobName")) as Hsome.
    { exists (VStr "job-1"). vm_compute. reflexivity. }
    split; [exact Hsome|].
    exact (proj2 (job_name_lookup (Mock.hook Mock.expand 200) Mock.repr
                    (Mock.operator_of Mock.job_1 "increment") []) Hsome).
Defined.

(** * Further properties of the operator *)

(** ** [_create_integer_fields] *)

(** X1. [_create_integer_fields] overwrites the list: whatever
    [self.integer_fields] held before, the result is the same list, it
    has no duplicates, and no other attribute changes. *)
Theorem create_integer_fields_overwrites (self : operator) (previous : list path) :
  integer_fields (_create_integer_fields (set_integer_fields self previous))
    = integer_fields (_create_integer_fields self)
  ∧ NoDup (integer_fields (_create_integer_fields self))
  ∧ _create_integer_fields (_create_integer_fields self)
    = _create_integer_fields self
  ∧ config (_create_integer_fields self) = config self.
Proof.
  unfold _create_integer_fields, resource_cluster_fields, runtime_timeout_field.
  cbn [config set_integer_fields].
  destruct (decide (is_Some (config self !! "StoppingCondition"))) as [Hkey|Hkey];
    cbn [config integer_fields set_integer_fields app].
  - repeat split; [|by destruct (decide _)].
    repeat (apply NoDup_cons; split; [set_unfold; intuition congruence|]).
    apply NoDup_nil_2.
  - repeat split; [|by destruct (decide _)].
    repeat (apply NoDup_cons; split; [set_unfold; intuition congruence|]).
    apply NoDup_nil_2.
Qed.

Lemma count_cons (p : event → bool) (e : event) (t : list event) :
  count p (e :: t) = ((if p e then 1 else 0) + count p t)%nat.
Proof.
  unfold count. destruct (p e) eqn:He.
  - by rewrite filter_cons_True.
  - rewrite filter_cons_False; [done | congruence].
Qed.

Ltac count_events :=
  unfold create_event;
  rewrite ?count_app, ?count_cons;
  change (count ?p []) with 0%nat;
  cbn [is_expand_role is_find is_create is_describe is_normalized].

Ltac split_elem :=
  repeat match goal with
  | H : _ ∈ _ ++ _ |- _ => apply elem_of_app in H as [H|H]
  | H : _ ∈ _ :: _ |- _ => apply elem_of_cons in H as [H|H]
  | H : _ ∈ [] |- _ => by apply elem_of_nil in H
  end.

Section Further.
Context {World : Type} (hook : Hooks World) (repr : value → string).

(** ** [expand_role] *)

(** X2. A role expansion that returns changes nothing but the value
    under ['RoleArn']: every other key keeps its value, the key set is
    the same, the other attributes are the same; and without a
    ['RoleArn'] key nothing happens at all, the resolver is not called. *)
Theorem expand_role_frame (self self' : operator) (w : World) :
  outcome (expand_role hook self w) = Ok self' →
  (∀ key, key ≠ "RoleArn" → config self' !! key = config self !! key)
  ∧ (∀ key, is_Some (config self' !! key) ↔ is_Some (config self !! key))
  ∧ self' = set_config self (config self')
  ∧ (config self !! "RoleArn" = None →
     expand_role hook self w = Run (Ok self) w []).
Proof.
  rewrite expand_role_run.
  destruct (config self !! "RoleArn") as [role|] eqn:Hrole; cbn.
  - destruct (iam_expand_role _ _ _ _).1 as [arn|e]; [|done].
    intros [= <-]. cbn. repeat split; try done.
    + intros key Hne. by rewrite lookup_insert_ne.
    + destruct (decide ("RoleArn" = key)) as [<-|Hne].
      * rewrite lookup_insert_eq, Hrole. eauto.
      * by rewrite lookup_insert_ne.
    + destruct (decide ("RoleArn" = key)) as [<-|Hne].
      * rewrite lookup_insert_eq, Hrole. eauto.
      * by rewrite lookup_insert_ne.
  - intros [= <-]. repeat split; try done. by destruct self.
Qed.

(** ** [execute] *)

Lemma preprocess_config_with_policy (self : operator) action log (w : World) :
  preprocess_config hook (with_policy self action log) w =
  Run match outcome (preprocess_config hook self w) with
      | Ok self' => Ok (with_policy self' action log)
      | Raise e => Raise e
      end
    (final (preprocess_config hook self w))
    (trace (preprocess_config hook self w)).
Proof.
  rewrite !preprocess_config_run. unfold parse_config_integers.
  cbn [config integer_fields with_policy].
  destruct (parse_fields _ _) as [c1|e]; cbn; [|done].
  rewrite !expand_role_run. cbn.
  destruct (c1 !! "RoleArn") as [role|]; cbn; [|done].
  by destruct (iam_expand_role _ _ _ _).1.
Qed.

(** X3. [execute] reads neither [action_if_job_exists] nor [print_log]:
    two operators that differ in these two attributes only end the same
    way, leave the platform in the same state and make the same calls. *)
Theorem execute_ignores_policy_and_log_flag (self : operator) action log (w : World) :
  execute hook repr (with_policy self action log) w = execute hook repr self w.
Proof.
  unfold execute. rewrite !run_bind, preprocess_config_with_policy.
  cbn [outcome final trace].
  by destruct (outcome (preprocess_config hook self w)).
Qed.

Lemma normalization_completed (self self' : operator) (w : World) w1 t :
  preprocess_config hook self w = Run (Ok self') w1 t →
  EvNormalized (config self') ∈ t
  ∧ ∃ t0, t = t0 ++ [EvNormalized (config self')]
          ∧ Forall (λ e, is_expand_role e = true) t0.
Proof.
  intros Hp. destruct (preprocess_config_trace hook self w) as (t0 & Ht0 & Ht).
  rewrite Hp in Ht. cbn in Ht. subst t. split; [|eauto].
  apply elem_of_app. right. apply list_elem_of_here.
Qed.

Lemma normalization_settings (self self' : operator) (w : World) w1 t :
  preprocess_config hook self w = Run (Ok self') w1 t →
  wait_for_completion self' = wait_for_completion self
  ∧ check_interval self' = check_interval self
  ∧ max_ingestion_time self' = max_ingestion_time self.
Proof.
  intros Hp.
  rewrite (preprocess_config_attributes hook self self' w) by (by rewrite Hp).
  done.
Qed.

(** X4. [execute] returns a value only at the end of a complete run:
    normalization, an existence check answered with no, the log line,
    a create-job call answered with status 200 and a describe call that
    returned, in this order and with nothing else after normalization;
    the value is the description under ['Processing']. *)
Theorem execute_returns_after_all_calls (self : operator) (w : World)
    (result : gmap string value) :
  outcome (execute hook repr self w) = Ok result →
  ∃ t c name response description,
    trace (execute hook repr self w) =
      t ++ [ EvNormalized c;
             EvFind name (Ok false);
             EvLogInfo "Creating SageMaker processing job %s." name;
             EvCreate c (wait_for_completion self) (check_interval self)
               (max_ingestion_time self) (Ok response);
             EvDescribe name (Ok description) ]
    ∧ Forall (λ e, is_expand_role e = true) t
    ∧ c !! "ProcessingJobName" = Some name
    ∧ status_code response = Ok (VInt 200)
    ∧ result = {[ "Processing" := description ]}.
Proof.
  destruct (execute_run hook repr self w)
    as [e w1 t Hp | self' w1 t Hp Hname | self' w1 t n e w2 Hp Hname Hfind
       | self' w1 t n w2 Hp Hname Hfind | self' w1 t n w2 r Hp Hname Hfind Hsub];
    cbn [outcome trace prepend]; try done.
  destruct (normalization_settings _ _ _ _ _ Hp) as (Hwait & Hinterval & Hmax).
  destruct (normalization_completed _ _ _ _ _ Hp) as (_ & t0 & -> & Ht0).
  destruct Hsub as [e w3 Hcreate | resp w3 e Hcreate Hcode
                   | resp w3 st Hcreate Hcode Hfail
                   | resp w3 st d w4 Hcreate Hcode Hfail Hdescribe];
    cbn [trace outcome]; try done.
  destruct d as [description|e]; cbn; [|done]. intros [= <-].
  apply py_ne_int_200 in Hfail as ->.
  exists t0, (config self'), n, resp, description.
  unfold create_event. rewrite Hwait, Hinterval, Hmax, <-!(assoc_L (++)).
  by repeat split.
Qed.

(** X6. What the create-job call is given: the configuration as
    normalization left it, and the operator's own wait flag, check
    interval and maximum ingestion time. *)
Theorem create_call_arguments (self : operator) (w : World)
    c wait interval max_time (r : result value) :
  EvCreate c wait interval max_time r ∈ trace (execute hook repr self w) →
  EvNormalized c ∈ trace (execute hook repr self w)
  ∧ wait = wait_for_completion self
  ∧ interval = check_interval self
  ∧ max_time = max_ingestion_time self.
Proof.
  destruct (execute_run hook repr self w)
    as [e0 w1 t Hp | self' w1 t Hp Hname | self' w1 t n e0 w2 Hp Hname Hfind
       | self' w1 t n w2 Hp Hname Hfind | self' w1 t n w2 r0 Hp Hname Hfind Hsub];
    cbn [outcome trace prepend]; intros Hin.
  - by eapply normalization_not_elem in Hin.
  - by eapply normalization_not_elem in Hin.
  - split_elem; [by eapply normalization_not_elem in Hin | done].
  - split_elem; [by eapply normalization_not_elem in Hin | done].
  - destruct (normalization_settings _ _ _ _ _ Hp) as (Hwait & Hinterval & Hmax).
    destruct (normalization_completed _ _ _ _ _ Hp) as (Hnorm & _).
    assert (EvCreate c wait interval max_time r = create_event self' r) as Heq.
    { destruct Hsub; cbn [trace] in Hin; split_elem; try done;
        try (by eapply normalization_not_elem in Hin);
        unfold create_event in *; congruence. }
    unfold create_event in Heq. injection Heq as -> -> -> ->.
    split; [|done]. apply elem_of_app. left. apply elem_of_app. by left.
Qed.

Lemma preprocess_config_raised (self : operator) (w : World) (e : event) x :
  e ∈ trace (preprocess_config hook self w) →
  raised e = Some x →
  outcome (preprocess_config hook self w) = Raise (Propagated x)
  ∧ trace (preprocess_config hook self w) = [e].
Proof.
  rewrite preprocess_config_run. unfold parse_config_integers.
  destruct (parse_fields _ _) as [c1|e1]; cbn; [|by intros ?%elem_of_nil].
  rewrite expand_role_run. cbn.
  destruct (c1 !! "RoleArn") as [role|]; cbn.
  - destruct (iam_expand_role _ _ _ _).1 as [arn|e1]; cbn; intros Hin Hx;
      split_elem; rewrite Hin in Hx |- *; try done.
    by injection Hx as ->.
  - intros Hin Hx. split_elem. by rewrite Hin in Hx.
Qed.

(** X7. The operator catches nothing: when a call to a collaborator (the
    role expansion, the existence check, the create-job call, the
    describe call) raises, that call is the last thing the execution
    does and the exception is what [execute] raises. *)
Theorem collaborator_exception_ends_execute (self : operator) (w : World)
    (e : event) (x : exn) :
  e ∈ trace (execute hook repr self w) →
  raised e = Some x →
  outcome (execute hook repr self w) = Raise (Propagated x)
  ∧ ∃ t, trace (execute hook repr self w) = t ++ [e].
Proof.
  assert (∀ o w1 t, preprocess_config hook self w = Run o w1 t →
                    e ∈ t → raised e = Some x →
                    o = Raise (Propagated x) ∧ t = [e]) as Hnorm.
  { intros o w1 t Hp Hin Hx.
    destruct (preprocess_config_raised self w e x) as [Ho Ht];
      rewrite ?Hp; cbn; try done.
    by rewrite Hp in Ho, Ht. }
  destruct (execute_run hook repr self w)
    as [e0 w1 t Hp | self' w1 t Hp Hname | self' w1 t n e0 w2 Hp Hname Hfind
       | self' w1 t n w2 Hp Hname Hfind | self' w1 t n w2 r0 Hp Hname Hfind Hsub];
    cbn [outcome trace prepend]; intros Hin Hx.
  - destruct (Hnorm _ _ _ Hp Hin Hx) as [[= ->] ->]. split; [done|]. by exists [].
  - by destruct (Hnorm _ _ _ Hp Hin Hx) as [[=] _].
  - split_elem; [by destruct (Hnorm _ _ _ Hp Hin Hx) as [[=] _]|].
    rewrite Hin in Hx |- *. injection Hx as ->. eauto.
  - split_elem; [by destruct (Hnorm _ _ _ Hp Hin Hx) as [[=] _]|].
    by rewrite Hin in Hx.
  - destruct Hsub as [e1 w3 Hcreate | resp w3 e1 Hcreate Hcode
                     | resp w3 st Hcreate Hcode Hfail
                     | resp w3 st d w4 Hcreate Hcode Hfail Hdescribe];
      cbn [trace outcome] in *; unfold create_event in Hin; split_elem;
      try (by destruct (Hnorm _ _ _ Hp Hin Hx) as [[=] _]);
      rewrite Hin in Hx |- *; cbn in Hx; try done.
    + injection Hx as ->. eauto.
    + destruct d as [|e1]; [done|]. injection Hx as ->. split; [done|].
      eexists (_ ++ [EvCreate _ _ _ _ _]).
      rewrite <-(assoc_L (++) _ [EvCreate _ _ _ _ _] [EvDescribe _ _]).
      reflexivity.
Qed.

(** X8. A create-job answer in which the status code cannot be looked
    up makes [execute] raise the error of the lookup, a [TypeError] or
    the [KeyError] of the missing key, after the job has been submitted
    and without a describe call. *)
Theorem execute_raises_on_malformed_response (self : operator) (w : World)
    c wait interval max_time (response : value) (e : exn) :
  EvCreate c wait interval max_time (Ok response)
    ∈ trace (execute hook repr self w) →
  status_code response = Raise e →
  outcome (execute hook repr self w) = Raise e
  ∧ count is_describe (trace (execute hook repr self w)) = 0%nat
  ∧ (e = TypeError ∨ e = KeyError "ResponseMetadata"
     ∨ e = KeyError "HTTPStatusCode")
  ∧ (∀ d, response = VDict d → d !! "ResponseMetadata" = None →
          e = KeyError "ResponseMetadata").
Proof.
  intros (self' & w1 & t & name & w2 & r & Hp & _ & Hsub & Hin & ->)%created_job_run.
  intros Hstatus. cbn [outcome trace prepend].
  assert (e = TypeError ∨ e = KeyError "ResponseMetadata"
          ∨ e = KeyError "HTTPStatusCode") as Hkind.
  { revert Hstatus. unfold status_code, py_getitem, getitem.
    destruct response; cbn; try (intros [= <-]; auto).
    destruct (_ !! "ResponseMetadata") as [[]|]; cbn;
      try (intros [= <-]; auto).
    destruct (_ !! "HTTPStatusCode"); [done|]. intros [= <-]; auto. }
  assert (∀ d, response = VDict d → d !! "ResponseMetadata" = None →
               e = KeyError "ResponseMetadata") as Hmissing.
  { intros d -> Hnone. revert Hstatus. unfold status_code, py_getitem, getitem.
    cbn. rewrite Hnone. cbn. by intros [= <-]. }
  destruct (normalization_calls _ _ _ _ _ _ Hp) as (_ & _ & Hdescribe).
  rewrite !count_app, Hdescribe.
  destruct Hsub as [e1 w3 Hcreate | resp w3 e1 Hcreate Hcode
                   | resp w3 st Hcreate Hcode Hfail
                   | resp w3 st d w4 Hcreate Hcode Hfail Hdesc];
    cbn [trace outcome] in *; unfold create_event in Hin; split_elem;
    try done; injection Hin as -> -> -> -> ->; try congruence.
  rewrite Hcode in Hstatus. by injection Hstatus as ->.
Qed.

(** X9. A describe call is made only for a job that this execution
    submitted: the existence check for the same name answered no, and
    the create-job call, for a configuration holding that name, answered
    with status 200. *)
Theorem describe_only_after_creation (self : operator) (w : World)
    (name : value) (r : result value) :
  EvDescribe name r ∈ trace (execute hook repr self w) →
  EvFind name (Ok false) ∈ trace (execute hook repr self w)
  ∧ ∃ c response,
      EvCreate c (wait_for_completion self) (check_interval self)
        (max_ingestion_time self) (Ok response)
        ∈ trace (execute hook repr self w)
      ∧ c !! "ProcessingJobName" = Some name
      ∧ status_code response = Ok (VInt 200).
Proof.
  destruct (execute_run hook repr self w)
    as [e0 w1 t Hp | self' w1 t Hp Hname | self' w1 t n e0 w2 Hp Hname Hfind
       | self' w1 t n w2 Hp Hname Hfind | self' w1 t n w2 r0 Hp Hname Hfind Hsub];
    cbn [outcome trace prepend]; intros Hin.
  - by eapply normalization_not_elem in Hin.
  - by eapply normalization_not_elem in Hin.
  - split_elem; [by eapply normalization_not_elem in Hin | done].
  - split_elem; [by eapply normalization_not_elem in Hin | done].
  - destruct (normalization_settings _ _ _ _ _ Hp) as (Hwait & Hinterval & Hmax).
    destruct Hsub as [e1 w3 Hcreate | resp w3 e1 Hcreate Hcode
                     | resp w3 st Hcreate Hcode Hfail
                     | resp w3 st d w4 Hcreate Hcode Hfail Hdesc];
      cbn [trace] in *; unfold create_event in *; split_elem; try done;
      try (by eapply normalization_not_elem in Hin).
    injection Hin as -> ->. apply py_ne_int_200 in Hfail as ->.
    rewrite <-Hwait, <-Hinterval, <-Hmax. split.
    + apply elem_of_app. left. apply elem_of_app. right. apply list_elem_of_here.
    + exists (config self'), resp. split; [|done].
      apply elem_of_app. right. apply list_elem_of_here.
Qed.

Lemma preprocess_config_expansions (self : operator) (w : World) :
  (count is_expand_role (trace (preprocess_config hook self w)) ≤ 1)%nat
  ∧ (config self !! "RoleArn" = None →
     count is_expand_role (trace (preprocess_config hook self w)) = 0%nat).
Proof.
  rewrite preprocess_config_run. unfold parse_config_integers.
  destruct (parse_fields _ _) as [c1|e1] eqn:Hc1; cbn [outcome trace mbind result_bind];
    [|split; [|done]; count_events; lia].
  rewrite expand_role_run. cbn [config set_config aws_conn_id].
  destruct (c1 !! "RoleArn") as [role|] eqn:Hrole; cbv zeta; cbn [outcome trace].
  - split.
    + destruct (iam_expand_role hook (aws_conn_id self) role w).1;
        cbn [outcome trace]; count_events; lia.
    + intros Hnone.
      assert (is_Some (config self !! "RoleArn")) as [? ?]; [|congruence].
      apply (proj1 (parse_fields_is_Some _ _ _ "RoleArn" Hc1)). eauto.
  - split; [|intros _]; count_events; lia.
Qed.

(** X10. Each collaborator is called at most once in an execution: at
    most one role expansion, one existence check and one describe call;
    and without a ['RoleArn'] key the IAM hook is not called at all. *)
Theorem execute_calls_at_most_once (self : operator) (w : World) :
  (count is_expand_role (trace (execute hook repr self w)) ≤ 1)%nat
  ∧ (count is_find (trace (execute hook repr self w)) ≤ 1)%nat
  ∧ (count is_describe (trace (execute hook repr self w)) ≤ 1)%nat
  ∧ (config self !! "RoleArn" = None →
     count is_expand_role (trace (execute hook repr self w)) = 0%nat).
Proof.
  destruct (preprocess_config_expansions self w) as [Hle Hzero].
  destruct (execute_run hook repr self w)
    as [e0 w1 t Hp | self' w1 t Hp Hname | self' w1 t n e0 w2 Hp Hname Hfind
       | self' w1 t n w2 Hp Hname Hfind | self' w1 t n w2 r0 Hp Hname Hfind Hsub];
    cbn [outcome trace prepend];
    destruct (normalization_calls _ _ _ _ _ _ Hp) as (Hf & _ & Hd);
    rewrite Hp in Hle, Hzero; cbn [trace] in Hle, Hzero.
  - repeat split; [done | lia | lia | done].
  - repeat split; [done | lia | lia | done].
  - repeat split; [| | |intros Hnone; specialize (Hzero Hnone)];
      count_events; lia.
  - repeat split; [| | |intros Hnone; specialize (Hzero Hnone)];
      count_events; lia.
  - repeat split; [| | |intros Hnone; specialize (Hzero Hnone)];
      destruct Hsub; cbn [trace]; count_events; lia.
Qed.

End Further.

(** ** The further properties on the test doubles *)

Example execute_bad_role_trace :
  trace (execute (Mock.hook Mock.expand 200) Mock.repr
           (Mock.operator_of Scenario.bad_role "increment") []) =
  [ EvExpandRole "aws_default" (VInt 7) (Raise TypeError) ].
Proof. vm_compute. reflexivity. Qed.

Example execute_mute_trace :
  trace (execute Scenario.mute_hook Mock.repr
           (Mock.operator_of Mock.job_1 "increment") []) =
  [ EvNormalized Mock.job_1_normalized;
    EvFind (VStr "job-1") (Ok false);
    EvLogInfo "Creating SageMaker processing job %s." (VStr "job-1");
    EvCreate Mock.job_1_normalized true 30 None (Ok (VDict ∅)) ].
Proof. vm_compute. reflexivity. Qed.

Example expand_role_job_2 :
  outcome (expand_role (Mock.hook Mock.expand 200)
             (Mock.operator_of Mock.job_2 "increment") []) =
  Ok (Mock.operator_of Mock.job_2_normalized "increment").
Proof. vm_compute. reflexivity. Qed.

Lemma expand_role_frame_witness :
  (outcome (expand_role (Mock.hook Mock.expand 200)
              (Mock.operator_of Mock.job_2 "increment") [])
     = Ok (Mock.operator_of Mock.job_2_normalized "increment")
   ∧ config (Mock.operator_of Mock.job_2_normalized "increment")
       !! "ProcessingJobName"
     = config (Mock.operator_of Mock.job_2 "increment") !! "ProcessingJobName")
  ∧ (outcome (expand_role (Mock.hook Mock.expand 200)
                (Mock.operator_of Mock.job_1 "increment") [])
       = Ok (Mock.operator_of Mock.job_1 "increment")
     ∧ config (Mock.operator_of Mock.job_1 "increment") !! "RoleArn" = None
     ∧ expand_role (Mock.hook Mock.expand 200)
         (Mock.operator_of Mock.job_1 "increment") []
       = Run (Ok (Mock.operator_of Mock.job_1 "increment")) [] []).
Proof.
  split.
  - split; [exact expand_role_job_2|].
    apply (proj1 (expand_role_frame (Mock.hook Mock.expand 200)
                    (Mock.operator_of Mock.job_2 "increment")
                    (Mock.operator_of Mock.job_2_normalized "increment") []
                    expand_role_job_2)).
    discriminate.
  - assert (outcome (expand_role (Mock.hook Mock.expand 200)
                       (Mock.operator_of Mock.job_1 "increment") [])
              = Ok (Mock.operator_of Mock.job_1 "increment")) as Hrun
      by (vm_compute; reflexivity).
    assert (config (Mock.operator_of Mock.job_1 "increment") !! "RoleArn" = None)
      as Hnone by (vm_compute; reflexivity).
    split; [exact Hrun|]. split; [exact Hnone|].
    exact (proj2 (proj2 (proj2 (expand_role_frame (Mock.hook Mock.expand 200)
                                  (Mock.operator_of Mock.job_1 "increment")
                                  (Mock.operator_of Mock.job_1 "increment") []
                                  Hrun))) Hnone).
Defined.

Lemma execute_returns_after_all_calls_witness :
  outcome (execute (Mock.hook Mock.expand 200) Mock.repr
             (Mock.operator_of Mock.job_1 "increment") [])
    = Ok {[ "Processing" := Mock.description (VStr "job-1") ]}
  ∧ ∃ t c name response description,
      trace (execute (Mock.hook Mock.expand 200) Mock.repr
               (Mock.operator_of Mock.job_1 "increment") []) =
        t ++ [ EvNormalized c;
               EvFind name (Ok false);
               EvLogInfo "Creating SageMaker processing job %s." name;
               EvCreate c
                 (wait_for_completion (Mock.operator_of Mock.job_1 "increment"))
                 (check_interval (Mock.operator_of Mock.job_1 "increment"))
                 (max_ingestion_time (Mock.operator_of Mock.job_1 "increment"))
                 (Ok response);
               EvDescribe name (Ok description) ]
      ∧ Forall (λ e, is_expand_role e = true) t
      ∧ c !! "ProcessingJobName" = Some name
      ∧ status_code response = Ok (VInt 200)
      ∧ ({[ "Processing" := Mock.description (VStr "job-1") ]}
           : gmap string value)
        = {[ "Processing" := description ]}.
Proof.
  split; [exact execute_job_1|].
  exact (execute_returns_after_all_calls (Mock.hook Mock.expand 200) Mock.repr
           (Mock.operator_of Mock.job_1 "increment") [] _ execute_job_1).
Defined.

Lemma create_call_arguments_witness :
  EvCreate Mock.job_1_normalized true 30 None (Ok (Mock.response 200))
    ∈ trace (execute (Mock.hook Mock.expand 200) Mock.repr
               (Mock.operator_of Mock.job_1 "increment") [])
  ∧ EvNormalized Mock.job_1_normalized
      ∈ trace (execute (Mock.hook Mock.expand 200) Mock.repr
                 (Mock.operator_of Mock.job_1 "increment") [])
  ∧ true = wait_for_completion (Mock.operator_of Mock.job_1 "increment")
  ∧ 30 = check_interval (Mock.operator_of Mock.job_1 "increment")
  ∧ None = max_ingestion_time (Mock.operator_of Mock.job_1 "increment").
Proof.
  assert (EvCreate Mock.job_1_normalized true 30 None (Ok (Mock.response 200))
            ∈ trace (execute (Mock.hook Mock.expand 200) Mock.repr
                       (Mock.operator_of Mock.job_1 "increment") [])) as Hin.
  { rewrite execute_job_1_trace. do 3 apply list_elem_of_further.
    apply list_elem_of_here. }
  split; [exact Hin|].
  exact (create_call_arguments (Mock.hook Mock.expand 200) Mock.repr
           (Mock.operator_of Mock.job_1 "increment") [] _ _ _ _ _ Hin).
Defined.

Lemma collaborator_exception_ends_execute_witness :
  EvExpandRole "aws_default" (VInt 7) (Raise TypeError)
    ∈ trace (execute (Mock.hook Mock.expand 200) Mock.repr
               (Mock.operator_of Scenario.bad_role "increment") [])
  ∧ raised (EvExpandRole "aws_default" (VInt 7) (Raise TypeError))
      = Some TypeError
  ∧ outcome (execute (Mock.hook Mock.expand 200) Mock.repr
               (Mock.operator_of Scenario.bad_role "increment") [])
      = Raise (Propagated TypeError)
  ∧ ∃ t, trace (execute (Mock.hook Mock.expand 200) Mock.repr
                  (Mock.operator_of Scenario.bad_role "increment") [])
         = t ++ [EvExpandRole "aws_default" (VInt 7) (Raise TypeError)].
Proof.
  assert (EvExpandRole "aws_default" (VInt 7) (Raise TypeError)
            ∈ trace (execute (Mock.hook Mock.expand 200) Mock.repr
                       (Mock.operator_of Scenario.bad_role "increment") []))
    as Hin.
  { rewrite execute_bad_role_trace. apply list_elem_of_here. }
  split; [exact Hin|]. split; [reflexivity|].
  exact (collaborator_exception_ends_execute (Mock.hook Mock.expand 200)
           Mock.repr (Mock.operator_of Scenario.bad_role "increment") []
           _ _ Hin eq_refl).
Defined.

Lemma execute_raises_on_malformed_response_witness :
  EvCreate Mock.job_1_normalized true 30 None (Ok (VDict ∅))
    ∈ trace (execute Scenario.mute_hook Mock.repr
               (Mock.operator_of Mock.job_1 "increment") [])
  ∧ status_code (VDict ∅) = Raise (KeyError "ResponseMetadata")
  ∧ outcome (execute Scenario.mute_hook Mock.repr
               (Mock.operator_of Mock.job_1 "increment") [])
      = Raise (KeyError "ResponseMetadata")
  ∧ count is_describe
      (trace (execute Scenario.mute_hook Mock.repr
                (Mock.operator_of Mock.job_1 "increment") [])) = 0%nat.
Proof.
  assert (EvCreate Mock.job_1_normalized true 30 None (Ok (VDict ∅))
            ∈ trace (execute Scenario.mute_hook Mock.repr
                       (Mock.operator_of Mock.job_1 "increment") [])) as Hin.
  { rewrite execute_mute_trace. do 3 apply list_elem_of_further.
    apply list_elem_of_here. }
  assert (status_code (VDict ∅) = Raise (KeyError "ResponseMetadata"))
    as Hstatus by reflexivity.
  split; [exact Hin|]. split; [exact Hstatus|].
  destruct (execute_raises_on_malformed_response Scenario.mute_hook Mock.repr
              (Mock.operator_of Mock.job_1 "increment") [] _ _ _ _ _ _
              Hin Hstatus) as (Hout & Hcount & _ & _).
  exact (conj Hout Hcount).
Defined.

Lemma describe_only_after_creation_witness :
  EvDescribe (VStr "job-1") (Ok (Mock.description (VStr "job-1")))
    ∈ trace (execute (Mock.hook Mock.expand 200) Mock.repr
               (Mock.operator_of Mock.job_1 "increment") [])
  ∧ EvFind (VStr "job-1") (Ok false)
      ∈ trace (execute (Mock.hook Mock.expand 200) Mock.repr
                 (Mock.operator_of Mock.job_1 "increment") [])
  ∧ ∃ c response,
      EvCreate c
        (wait_for_completion (Mock.operator_of Mock.job_1 "increment"))
        (check_interval (Mock.operator_of Mock.job_1 "increment"))
        (max_ingestion_time (Mock.operator_of Mock.job_1 "increment"))
        (Ok response)
        ∈ trace (execute (Mock.hook Mock.expand 200) Mock.repr
                   (Mock.operator_of Mock.job_1 "increment") [])
      ∧ c !! "ProcessingJobName" = Some (VStr "job-1")
      ∧ status_code response = Ok (VInt 200).
Proof.
  assert (EvDescribe (VStr "job-1") (Ok (Mock.description (VStr "job-1")))
            ∈ trace (execute (Mock.hook Mock.expand 200) Mock.repr
                       (Mock.operator_of Mock.job_1 "increment") [])) as Hin.
  { rewrite execute_job_1_trace. do 4 apply list_elem_of_further.
    apply list_elem_of_here. }
  split; [exact Hin|].
  exact (describe_only_after_creation (Mock.hook Mock.expand 200) Mock.repr
           (Mock.operator_of Mock.job_1 "increment") [] _ _ Hin).
Defined.

Lemma execute_calls_at_most_once_witness :
  config (Mock.operator_of Mock.job_1 "increment") !! "RoleArn" = None
  ∧ count is_expand_role
      (trace (execute (Mock.hook Mock.expand 200) Mock.repr
                (Mock.operator_of Mock.job_1 "increment") [])) = 0%nat.
Proof.
  assert (config (Mock.operator_of Mock.job_1 "increment") !! "RoleArn" = None)
    as Hnone by (vm_compute; reflexivity).
  split; [exact Hnone|].
  exact (proj2 (proj2 (proj2 (execute_calls_at_most_once
                                (Mock.hook Mock.expand 200) Mock.repr
                                (Mock.operator_of Mock.job_1 "increment") [])))
           Hnone).
Defined.
